(** * Parametric Value-at-Risk notebook (course-materials/ValueAtRisk.ipynb)

    The notebook is a straight-line script over pandas, numpy and scipy:

      returns          = data.pct_change()
      cov_matrix       = returns.cov()
      mean_returns     = returns.mean()
      port_mean        = mean_returns.dot(weights)
      port_stdev       = np.sqrt(weights.T.dot(cov_matrix).dot(weights))
      mean_investment  = (1 + port_mean) * initial_investment
      investment_stdev = initial_investment * port_stdev
      percent_point    = norm.ppf(confidence, mean_investment, investment_stdev)
      value_at_risk    = initial_investment - percent_point
      value_at_risks   = value_at_risk * np.sqrt(range(1, 31))

    Each cell is embedded as a function of the names it reads.  Numbers are
    IEEE doubles with their special values (infinities and NaN) kept and
    their rounding left out: a finite double is a real number and the
    arithmetic on finite values is exact. *)

From Stdlib Require Import Reals Lra Lia List Bool Arith.
From Stdlib Require Import Classical ClassicalEpsilon FunctionalExtensionality.
Import ListNotations.

Open Scope R_scope.

(** ** Doubles with special values *)

Inductive float : Type :=
| Fin (x : R)
| PInf
| NInf
| NaN.

(** Three-way comparison of reals, the only test the arithmetic needs. *)
Definition Rcmp (x y : R) : comparison :=
  match total_order_T x y with
  | inleft (left _) => Lt
  | inleft (right _) => Eq
  | inright _ => Gt
  end.

Definition Rsign (x : R) : comparison := Rcmp x 0.

Definition inf_of_sign (s : comparison) : float :=
  match s with
  | Gt => PInf
  | Lt => NInf
  | Eq => NaN
  end.

Definition fneg (a : float) : float :=
  match a with
  | Fin x => Fin (- x)
  | PInf => NInf
  | NInf => PInf
  | NaN => NaN
  end.

Definition fadd (a b : float) : float :=
  match a, b with
  | NaN, _ | _, NaN => NaN
  | Fin x, Fin y => Fin (x + y)
  | PInf, NInf | NInf, PInf => NaN
  | PInf, _ | _, PInf => PInf
  | NInf, _ | _, NInf => NInf
  end.

Definition fsub (a b : float) : float := fadd a (fneg b).

Definition fmul (a b : float) : float :=
  match a, b with
  | NaN, _ | _, NaN => NaN
  | Fin x, Fin y => Fin (x * y)
  | Fin x, PInf | PInf, Fin x => inf_of_sign (Rsign x)
  | Fin x, NInf | NInf, Fin x => inf_of_sign (CompOpp (Rsign x))
  | PInf, PInf | NInf, NInf => PInf
  | PInf, NInf | NInf, PInf => NInf
  end.

(** Division by a zero gives an infinity of the sign of the numerator, and
    NaN for 0/0 (numpy warns and goes on; it does not raise). *)
Definition fdiv (a b : float) : float :=
  match a, b with
  | NaN, _ | _, NaN => NaN
  | Fin x, Fin y =>
      match Rsign y with
      | Eq => inf_of_sign (Rsign x)
      | _ => Fin (x / y)
      end
  | Fin _, PInf | Fin _, NInf => Fin 0
  | PInf, Fin y => match Rsign y with Lt => NInf | _ => PInf end
  | NInf, Fin y => match Rsign y with Lt => PInf | _ => NInf end
  | _, _ => NaN
  end.

(** [np.sqrt]: NaN on a negative argument. *)
Definition fsqrt (a : float) : float :=
  match a with
  | Fin x => match Rsign x with Lt => NaN | _ => Fin (sqrt x) end
  | PInf => PInf
  | NInf => NaN
  | NaN => NaN
  end.

(** Comparisons: every comparison with NaN is false. *)
Definition fltb (a b : float) : bool :=
  match a, b with
  | Fin x, Fin y => match Rcmp x y with Lt => true | _ => false end
  | NInf, Fin _ | NInf, PInf | Fin _, PInf => true
  | _, _ => false
  end.

Definition feqb (a b : float) : bool :=
  match a, b with
  | Fin x, Fin y => match Rcmp x y with Eq => true | _ => false end
  | PInf, PInf | NInf, NInf => true
  | _, _ => false
  end.

Definition isnan (a : float) : bool :=
  match a with NaN => true | _ => false end.

Definition notna (a : float) : bool := negb (isnan a).

Definition isfinite (a : float) : bool :=
  match a with Fin _ => true | _ => false end.

(** [of_int]: a Python int used where a double is expected. *)
Definition of_nat (n : nat) : float := Fin (INR n).

(** Left-to-right sum, as a reduction over an array. *)
Definition fsum (l : list float) : float := fold_left fadd l (Fin 0).

(** [np.dot] of two vectors of the same length. *)
Definition fdot (l r : list float) : float :=
  fsum (map (fun p => fmul (fst p) (snd p)) (combine l r)).

(** ** Outcomes

    The notebook defines no exception of its own and validates nothing.  The
    only failures it can meet are the shape checks of its dot products
    (pandas raises [Exception], numpy [ValueError]); they are filed under
    [DimensionMismatchError] of the error taxonomy, whose other names are
    listed so that statements about them can be written. *)

Inductive error : Type :=
| InsufficientDataError
| InvalidPriceError
| DimensionMismatchError
| InvalidParameterError.

Inductive result (A : Type) : Type :=
| Returned (a : A)
| Raised (e : error).

Arguments Returned {A} a.
Arguments Raised {A} e.

Definition bind {A B : Type} (c : result A) (k : A -> result B) : result B :=
  match c with
  | Returned a => k a
  | Raised e => Raised e
  end.

Notation "x <- c ;; k" := (bind c (fun x => k))
  (at level 61, c at next level, right associativity).

(** ** Data model

    A table is the list of its columns, one per asset, each column the
    sequence of that asset's values in time order. *)

Definition PriceTable : Type := list (list float).
Definition ReturnTable : Type := list (list float).
Definition PortfolioWeights : Type := list float.
Definition CovarianceMatrix : Type := list (list float).

Record PortfolioStats : Type := mkStats {
  mean : float;
  stdDev : float
}.

Record RiskParameters : Type := mkParams {
  confidenceLevel : float;
  initialInvestment : float;
  horizonDays : nat
}.

(** ** [returns = data.pct_change()]

    pandas computes [data / data.shift(1) - 1] after forward-filling missing
    prices (fill_method="pad"); the shifted column starts with NaN, so the
    first entry of every result column is NaN. *)

Fixpoint ffill_from (last : float) (col : list float) : list float :=
  match col with
  | [] => []
  | x :: t =>
      let v := if isnan x then last else x in
      v :: ffill_from v t
  end.

Definition ffill (col : list float) : list float := ffill_from NaN col.

Definition shift (col : list float) : list float :=
  firstn (length col) (NaN :: col).

Definition pct_change (col : list float) : list float :=
  let data := ffill col in
  map (fun p => fsub (fdiv (fst p) (snd p)) (Fin 1)) (combine data (shift data)).

Definition returns (data : PriceTable) : ReturnTable := map pct_change data.

Definition buildReturns (prices : PriceTable) : result ReturnTable :=
  Returned (returns prices).

(** ** [mean_returns = returns.mean()]

    The mean skips NaN entries (skipna); a column without any valid entry
    has mean 0/0 = NaN. *)

Definition nanmean (col : list float) : float :=
  let vals := filter notna col in
  fdiv (fsum vals) (of_nat (length vals)).

Definition mean_returns (rets : ReturnTable) : list float := map nanmean rets.

(** ** [cov_matrix = returns.cov()]

    A table with a missing entry (every table that [pct_change] produces) is
    handled by pandas' [nancorr]: for each pair of columns it runs Welford's
    update over the rows where both entries are finite, then divides the
    accumulated co-moment by [nobs - 1]; fewer than one observation, or a
    zero divisor, gives NaN.  Only the pairs [yi <= xi] are computed and the
    value is stored at both [(xi, yi)] and [(yi, xi)].  (A table without any
    missing entry goes through [numpy.cov], which on finite data is the same
    normalised sum of centred products.) *)

Definition to_R (a : float) : R :=
  match a with Fin x => x | _ => 0 end.

Record welford : Type := mkWelford {
  nobs : nat;
  meanx : R;
  meany : R;
  ssqdm_x : R;
  ssqdm_y : R;
  covxy : R
}.

Definition welford0 : welford := mkWelford 0 0 0 0 0 0.

Definition welford_step (s : welford) (p : float * float) : welford :=
  if isfinite (fst p) && isfinite (snd p) then
    let vx := to_R (fst p) in
    let vy := to_R (snd p) in
    let n := S (nobs s) in
    let dx := vx - meanx s in
    let dy := vy - meany s in
    let mx := meanx s + 1 / INR n * dx in
    let my := meany s + 1 / INR n * dy in
    mkWelford n mx my
      (ssqdm_x s + (vx - mx) * dx)
      (ssqdm_y s + (vy - my) * dy)
      (covxy s + (vx - mx) * dy)
  else s.

Definition nancorr_pair (x y : list float) : float :=
  let s := fold_left welford_step (combine x y) welford0 in
  if (nobs s <? 1)%nat then NaN
  else
    let divisor := INR (nobs s) - 1 in
    match Rcmp divisor 0 with
    | Eq => NaN
    | _ => Fin (covxy s / divisor)
    end.

Definition cov_entry (rets : ReturnTable) (i j : nat) : float :=
  if (j <=? i)%nat
  then nancorr_pair (nth i rets []) (nth j rets [])
  else nancorr_pair (nth j rets []) (nth i rets []).

Definition cov (rets : ReturnTable) : CovarianceMatrix :=
  let K := length rets in
  map (fun i => map (fun j => cov_entry rets i j) (seq 0 K)) (seq 0 K).

(** ** [port_mean] and [port_stdev]

    [Series.dot] and [np.dot] check the shapes and raise on a mismatch. *)

Definition np_dot (l r : list float) : result float :=
  if (length l =? length r)%nat then Returned (fdot l r)
  else Raised DimensionMismatchError.

Definition ncols (m : list (list float)) : nat :=
  match m with
  | [] => 0%nat
  | row :: _ => length row
  end.

Definition column (m : list (list float)) (j : nat) : list float :=
  map (fun row => nth j row NaN) m.

(** Vector times matrix: entry [j] is the dot product with column [j]. *)
Definition np_dot_vec_mat (v : list float) (m : list (list float))
  : result (list float) :=
  if (length v =? length m)%nat
  then Returned (map (fun j => fdot v (column m j)) (seq 0 (ncols m)))
  else Raised DimensionMismatchError.

Definition port_mean (mean_rets : list float) (weights : PortfolioWeights)
  : result float :=
  np_dot mean_rets weights.

(** [weights.T.dot(cov_matrix).dot(weights)], evaluated left to right. *)
Definition quadratic_form (weights : PortfolioWeights)
  (cov_matrix : CovarianceMatrix) : result float :=
  wc <- np_dot_vec_mat weights cov_matrix ;;
  np_dot wc weights.

Definition port_stdev (weights : PortfolioWeights) (cov_matrix : CovarianceMatrix)
  : result float :=
  q <- quadratic_form weights cov_matrix ;;
  Returned (fsqrt q).

Definition aggregate (rets : ReturnTable) (weights : PortfolioWeights)
  : result PortfolioStats :=
  let cov_matrix := cov rets in
  let mean_rets := mean_returns rets in
  m <- port_mean mean_rets weights ;;
  s <- port_stdev weights cov_matrix ;;
  Returned (mkStats m s).

(** ** [norm.ppf] and the Normal distribution

    [gauss] is the unnormalised standard Normal density and [gauss_area x]
    its integral from 0 to [x].  [right_mass] and [left_mass] are its
    integrals over the positive and the negative half line, taken as the
    least upper bounds of the integrals over bounded intervals.  [Phi], the
    standard Normal distribution function, is the mass to the left of [x]
    over the total mass; [NormalCDF mu sigma] is the distribution function of
    the Normal law of mean [mu] and standard deviation [sigma]. *)

Definition gauss (t : R) : R := exp (- (t * t) / 2).

Definition gauss_integrable (a b : R) : Riemann_integrable gauss a b.
Proof.
  assert (C : forall x : R, continuity_pt gauss x).
  { intros x. apply derivable_continuous_pt. unfold gauss. reg. }
  destruct (Rle_dec a b) as [Hab | Hab].
  - apply continuity_implies_RiemannInt; [assumption | intros; apply C].
  - apply RiemannInt_P1.
    apply continuity_implies_RiemannInt; [lra | intros; apply C].
Qed.

Definition gauss_area (x : R) : R := RiemannInt (gauss_integrable 0 x).

Definition right_areas (v : R) : Prop := exists x, v = gauss_area x.
Definition left_areas (v : R) : Prop := exists x, v = - gauss_area x.

Definition right_mass : R := epsilon (inhabits 0) (is_lub right_areas).
Definition left_mass : R := epsilon (inhabits 0) (is_lub left_areas).

Definition Phi (x : R) : R :=
  (left_mass + gauss_area x) / (left_mass + right_mass).

Definition NormalCDF (mu sigma x : R) : R := Phi ((x - mu) / sigma).

(** [scipy.special.ndtri], documented as the argument for which the area
    under the standard Normal density, integrated from minus infinity, equals
    [q]: the point where [Phi] takes the value [q]. *)
Definition ndtri (q : R) : R := epsilon (inhabits 0) (fun z => Phi z = q).

(** [rv_continuous.ppf] for [norm]: the arguments are valid when
    [scale > 0] and [loc] is not NaN; a probability strictly inside (0,1)
    gives [ndtri q * scale + loc], the end points 0 and 1 give the ends of
    the support [-inf * scale + loc] and [+inf * scale + loc], and everything
    else gives NaN ([badvalue]).  Nothing raises. *)
Definition norm_ppf (q loc scale : float) : float :=
  let cond0 := fltb (Fin 0) scale && feqb loc loc in
  let cond1 := fltb (Fin 0) q && fltb q (Fin 1) in
  if cond0 && cond1 then fadd (fmul (Fin (ndtri (to_R q))) scale) loc
  else if cond0 && feqb q (Fin 0) then fadd (fmul NInf scale) loc
  else if cond0 && feqb q (Fin 1) then fadd (fmul PInf scale) loc
  else NaN.

(** ** [mean_investment], [investment_stdev], [percent_point], [value_at_risk] *)

Definition mean_investment (port_mean initial_investment : float) : float :=
  fmul (fadd (Fin 1) port_mean) initial_investment.

Definition investment_stdev (initial_investment port_stdev : float) : float :=
  fmul initial_investment port_stdev.

Definition percent_point (confidence mean_inv inv_stdev : float) : float :=
  norm_ppf confidence mean_inv inv_stdev.

Definition value_at_risk (initial_investment pp : float) : float :=
  fsub initial_investment pp.

Definition estimateVaR (stats : PortfolioStats) (params : RiskParameters)
  : result float :=
  let I := initialInvestment params in
  let mi := mean_investment (mean stats) I in
  let sd := investment_stdev I (stdDev stats) in
  let pp := percent_point (confidenceLevel params) mi sd in
  Returned (value_at_risk I pp).

(** ** [value_at_risks = value_at_risk * np.sqrt(range(1, 31))]

    The notebook fixes the horizon at 30 days; [scaleToHorizon] takes it as
    an argument, [range(1, horizonDays + 1)]. *)

Definition scaleToHorizon (oneStepVaR : float) (days : nat) : list float :=
  map (fun d => fmul oneStepVaR (fsqrt (of_nat d))) (seq 1 days).

Definition value_at_risks (var1 : float) : list float :=
  scaleToHorizon var1 30.

(** ** Reference definitions

    The textbook quantities the notebook's results are compared with. *)

Definition Rsum (l : list R) : R := fold_right Rplus 0 l.

Definition Rmean (l : list R) : R := Rsum l / INR (length l).

(** Sample covariance of paired observations, denominator [n - 1]. *)
Definition sample_cov (obs : list (R * R)) : R :=
  let mx := Rmean (map fst obs) in
  let my := Rmean (map snd obs) in
  Rsum (map (fun p => (fst p - mx) * (snd p - my)) obs)
  / (INR (length obs) - 1).

(** Sample variance, denominator [n - 1]. *)
Definition sample_var (xs : list R) : R :=
  let m := Rmean xs in
  Rsum (map (fun x => (x - m) * (x - m)) xs) / (INR (length xs) - 1).

(** The rows on which two assets are both observed. *)
Definition paired_obs (x y : list float) : list (R * R) :=
  map (fun p => (to_R (fst p), to_R (snd p)))
      (filter (fun p => isfinite (fst p) && isfinite (snd p)) (combine x y)).

(** The observed returns of one asset. *)
Definition observed (x : list float) : list R :=
  map to_R (filter isfinite x).

(** The vector of per-asset mean returns and the matrix of pairwise sample
    covariances. *)
Definition mean_vector (rets : ReturnTable) : list R :=
  map (fun col => Rmean (observed col)) rets.

Definition sample_cov_matrix (rets : ReturnTable) : list (list R) :=
  map (fun x => map (fun y => sample_cov (paired_obs x y)) rets) rets.

(** Dot product and quadratic form as index sums. *)
Definition dot_spec (u v : list R) : R :=
  Rsum (map (fun i => nth i u 0 * nth i v 0) (seq 0 (length u))).

Definition quad_form (w : list R) (S : list (list R)) : R :=
  Rsum (map (fun i =>
    Rsum (map (fun j => nth i w 0 * nth j (nth i S []) 0 * nth j w 0)
              (seq 0 (length w))))
    (seq 0 (length w))).

(** The return table as the data model words it: the first observation
    dropped, [return[t-1] = price[t] / price[t-1] - 1]. *)
Definition returns_dropped_col (col : list float) : list float :=
  map (fun t => fsub (fdiv (nth t col NaN) (nth (t - 1) col NaN)) (Fin 1))
      (seq 1 (length col - 1)).

Definition returns_dropped (prices : PriceTable) : ReturnTable :=
  map returns_dropped_col prices.

(** A price that is finite and positive. *)
Definition positive_price (a : float) : Prop :=
  exists x, a = Fin x /\ 0 < x.

(** ** Invariant of Welford's update

    After the rows [h] have been absorbed, the state holds their count, their
    two means, and the co-moment about those means. *)

Definition welford_inv (s : welford) (h : list (R * R)) : Prop :=
  nobs s = length h /\
  INR (length h) * meanx s = Rsum (map fst h) /\
  INR (length h) * meany s = Rsum (map snd h) /\
  covxy s =
    Rsum (map (fun p => fst p * snd p) h) - INR (length h) * meanx s * meany s.

Definition both_finite (p : float * float) : bool :=
  isfinite (fst p) && isfinite (snd p).

Definition obs_of (rows : list (float * float)) : list (R * R) :=
  map (fun p => (to_R (fst p), to_R (snd p))) (filter both_finite rows).

Definition swap (p : R * R) : R * R := (snd p, fst p).

(** A return that is either missing or a finite number. *)
Definition missing_or_finite (a : float) : Prop :=
  a = NaN \/ isfinite a = true.

(** ** A sample table

    Prices of two assets over four days, the second asset listed one day
    after the first: its first price is missing, so its first two returns
    are.  Used to evaluate the pipeline on concrete data. *)

Definition late_listing_prices : PriceTable :=
  [ [Fin 100; Fin 100; Fin 110; Fin 99];
    [NaN;     Fin 50;  Fin 55;  Fin (99 / 2)] ].

Definition late_listing_returns : ReturnTable :=
  [ [NaN; Fin 0; Fin (1 / 10); Fin (-1 / 10)];
    [NaN; NaN;   Fin (1 / 10); Fin (-1 / 10)] ].

(** ** A majorant of the density

    [2 * atan] has derivative [2 / (1 + x²)], which dominates [gauss]; it
    bounds the integrals of [gauss] through the fundamental theorem. *)

Definition two_atan_derivable : derivable (mult_real_fct 2 atan) :=
  fun x => derivable_pt_scal atan 2 x (derivable_pt_atan x).

Definition two_atan : C1_fun.
Proof.
  refine (@mkC1 (mult_real_fct 2 atan) two_atan_derivable _).
  replace (derive (mult_real_fct 2 atan) two_atan_derivable)
    with (fun x => 2 * (1 / (1 + x * x))).
  - intros x. apply derivable_continuous_pt. reg.
    pose proof (Rle_0_sqr x) as H. unfold Rsqr in H. lra.
  - apply functional_extensionality. intros x.
    unfold derive, two_atan_derivable.
    rewrite derive_pt_scal, derive_pt_atan. reflexivity.
Defined.

(** ** The notebook from end to end

    The cells in the order the notebook runs them: the returns, the portfolio
    statistics, the one-day VaR and its 30-day curve. *)

Definition notebook (data : PriceTable) (weights : PortfolioWeights)
  (initial_investment confidence : float) : result (float * list float) :=
  rets <- buildReturns data ;;
  stats <- aggregate rets weights ;;
  var1 <- estimateVaR stats (mkParams confidence initial_investment 30) ;;
  Returned (var1, value_at_risks var1).

(** ** Reference definitions for the return series *)

(** The ratios of a sequence to its predecessor, the first one to [prev]. *)
Fixpoint ratios (prev : float) (col : list float) : list float :=
  match col with
  | [] => []
  | x :: t => fsub (fdiv x prev) (Fin 1) :: ratios x t
  end.




(** ** Evaluation lemmas for the comparison *)

Lemma Rcmp_lt (x y : R) : x < y -> Rcmp x y = Lt.
Proof.
  intros H; unfold Rcmp.
  destruct (total_order_T x y) as [[Hlt | Heq] | Hgt]; try reflexivity; lra.
Qed.

Lemma Rcmp_eq (x y : R) : x = y -> Rcmp x y = Eq.
Proof.
  intros H; unfold Rcmp.
  destruct (total_order_T x y) as [[Hlt | Heq] | Hgt]; try reflexivity; lra.
Qed.

Lemma Rcmp_gt (x y : R) : y < x -> Rcmp x y = Gt.
Proof.
  intros H; unfold Rcmp.
  destruct (total_order_T x y) as [[Hlt | Heq] | Hgt]; try reflexivity; lra.
Qed.

Lemma Rcmp_Lt_inv (x y : R) : Rcmp x y = Lt -> x < y.
Proof.
  unfold Rcmp.
  destruct (total_order_T x y) as [[Hlt | Heq] | Hgt]; intros H;
    try discriminate; assumption.
Qed.

Lemma Rcmp_Eq_inv (x y : R) : Rcmp x y = Eq -> x = y.
Proof.
  unfold Rcmp.
  destruct (total_order_T x y) as [[Hlt | Heq] | Hgt]; intros H;
    try discriminate; assumption.
Qed.

Lemma Rcmp_Gt_inv (x y : R) : Rcmp x y = Gt -> y < x.
Proof.
  unfold Rcmp.
  destruct (total_order_T x y) as [[Hlt | Heq] | Hgt]; intros H;
    try discriminate; assumption.
Qed.

Lemma Rsign_pos (x : R) : 0 < x -> Rsign x = Gt.
Proof. apply Rcmp_gt. Qed.

Lemma Rsign_neg (x : R) : x < 0 -> Rsign x = Lt.
Proof. apply Rcmp_lt. Qed.

Lemma Rsign_zero : Rsign 0 = Eq.
Proof. apply Rcmp_eq; reflexivity. Qed.

Lemma fdiv_fin (x y : R) : y <> 0 -> fdiv (Fin x) (Fin y) = Fin (x / y).
Proof.
  intros Hy; unfold fdiv.
  destruct (Rsign y) eqn:E; try reflexivity.
  apply Rcmp_Eq_inv in E; contradiction.
Qed.

Lemma fsqrt_fin (x : R) : 0 <= x -> fsqrt (Fin x) = Fin (sqrt x).
Proof.
  intros Hx; unfold fsqrt.
  destruct (Rsign x) eqn:E; try reflexivity.
  apply Rcmp_Lt_inv in E; lra.
Qed.

Lemma fsqrt_neg (x : R) : x < 0 -> fsqrt (Fin x) = NaN.
Proof. intros Hx; unfold fsqrt; rewrite Rsign_neg by assumption; reflexivity. Qed.

(** ** Lists *)

Lemma nth_map_in {A B : Type} (f : A -> B) (l : list A) (i : nat) (d : A) (e : B) :
  (i < length l)%nat -> nth i (map f l) e = f (nth i l d).
Proof.
  intros H.
  rewrite (nth_indep (map f l) e (f d)) by (rewrite length_map; exact H).
  apply map_nth.
Qed.

Lemma nth_seq_map {B : Type} (f : nat -> B) (start len i : nat) (e : B) :
  (i < len)%nat -> nth i (map f (seq start len)) e = f (start + i)%nat.
Proof.
  intros H.
  rewrite (nth_map_in f (seq start len) i 0%nat e) by (rewrite length_seq; exact H).
  rewrite seq_nth by exact H. reflexivity.
Qed.

(** ** The horizon scaler *)

Lemma length_scaleToHorizon (v : float) (n : nat) :
  length (scaleToHorizon v n) = n.
Proof. unfold scaleToHorizon. rewrite length_map, length_seq. reflexivity. Qed.

Lemma nth_scaleToHorizon (v : float) (n k : nat) :
  (k < n)%nat ->
  nth k (scaleToHorizon v n) NaN = fmul v (fsqrt (of_nat (S k))).
Proof.
  intros H. unfold scaleToHorizon.
  rewrite nth_seq_map by exact H. reflexivity.
Qed.

(** C4. For every real [v] and every horizon [n >= 1], [scaleToHorizon v n]
    has exactly [n] values and the value at index [k], for [k] in [0, n), is
    [v * sqrt (k + 1)]. *)
Theorem scaleToHorizon_sqrt_rule (v : R) (n k : nat) :
  (1 <= n)%nat ->
  (k < n)%nat ->
  length (scaleToHorizon (Fin v) n) = n /\
  nth k (scaleToHorizon (Fin v) n) NaN = Fin (v * sqrt (INR k + 1)).
Proof.
  intros _ Hk. split.
  - apply length_scaleToHorizon.
  - rewrite nth_scaleToHorizon by exact Hk.
    unfold of_nat. rewrite fsqrt_fin by apply pos_INR.
    rewrite S_INR. reflexivity.
Qed.

Lemma scaleToHorizon_sqrt_rule_witness :
  length (value_at_risks (Fin 2)) = 30%nat /\
  nth 8 (value_at_risks (Fin 2)) NaN = Fin (2 * sqrt (INR 8 + 1)).
Proof. apply (scaleToHorizon_sqrt_rule 2 30 8); lia. Defined.

(** ** The return series *)

Lemma positive_price_notna (a : float) : positive_price a -> isnan a = false.
Proof. intros [x [-> _]]. reflexivity. Qed.

Lemma length_ffill_from (last : float) (col : list float) :
  length (ffill_from last col) = length col.
Proof.
  revert last. induction col as [| x t IH]; intros last; simpl.
  - reflexivity.
  - rewrite IH. reflexivity.
Qed.

Lemma ffill_from_id (last : float) (col : list float) :
  Forall (fun a => isnan a = false) col -> ffill_from last col = col.
Proof.
  intros H. revert last. induction H as [| x t Hx Ht IH]; intros last; simpl.
  - reflexivity.
  - rewrite Hx, IH. reflexivity.
Qed.

Lemma length_shift (col : list float) : length (shift col) = length col.
Proof. unfold shift. rewrite length_firstn. simpl. lia. Qed.

Lemma length_pct_change (col : list float) :
  length (pct_change col) = length col.
Proof.
  unfold pct_change.
  rewrite length_map, length_combine, length_shift. unfold ffill.
  rewrite length_ffill_from. lia.
Qed.

Lemma nth_shift (col : list float) (t : nat) :
  (t < length col)%nat ->
  nth t (shift col) NaN =
  match t with O => NaN | S t' => nth t' col NaN end.
Proof.
  intros H. unfold shift. rewrite nth_firstn.
  apply Nat.ltb_lt in H. rewrite H. destruct t; reflexivity.
Qed.

(** Without missing prices the fill does nothing and entry [t] of the
    result is the ratio to the previous price, the first one to NaN. *)
Lemma nth_pct_change (col : list float) (t : nat) :
  Forall (fun a => isnan a = false) col ->
  (t < length col)%nat ->
  nth t (pct_change col) NaN =
  match t with
  | O => NaN
  | S t' => fsub (fdiv (nth (S t') col NaN) (nth t' col NaN)) (Fin 1)
  end.
Proof.
  intros Hc Ht. unfold pct_change, ffill.
  rewrite ffill_from_id by exact Hc.
  rewrite (nth_map_in _ _ t (NaN, NaN)).
  - rewrite combine_nth by (symmetry; apply length_shift).
    rewrite nth_shift by exact Ht. simpl fst; simpl snd.
    destruct t as [| t'].
    + destruct (nth 0 col NaN); reflexivity.
    + reflexivity.
  - rewrite length_combine, length_shift. lia.
Qed.

Lemma length_returns_dropped_col (col : list float) :
  length (returns_dropped_col col) = (length col - 1)%nat.
Proof. unfold returns_dropped_col. rewrite length_map, length_seq. reflexivity. Qed.

Lemma nth_returns_dropped_col (col : list float) (k : nat) :
  (k < length col - 1)%nat ->
  nth k (returns_dropped_col col) NaN =
  fsub (fdiv (nth (S k) col NaN) (nth k col NaN)) (Fin 1).
Proof.
  intros H. unfold returns_dropped_col.
  rewrite nth_seq_map by exact H.
  simpl. rewrite Nat.sub_0_r. reflexivity.
Qed.

(** The column that [pct_change] produces is the undefined first entry
    followed by the returns of the data model. *)
Lemma pct_change_dropped (col : list float) :
  Forall (fun a => isnan a = false) col ->
  (1 <= length col)%nat ->
  pct_change col = NaN :: returns_dropped_col col.
Proof.
  intros Hc Hl.
  apply (nth_ext _ _ NaN NaN).
  - simpl. rewrite length_pct_change, length_returns_dropped_col. lia.
  - intros t Ht. rewrite length_pct_change in Ht.
    rewrite nth_pct_change by assumption.
    destruct t as [| t']; simpl.
    + reflexivity.
    + rewrite nth_returns_dropped_col by lia. reflexivity.
Qed.

Lemma Forall_positive_notna (col : list float) :
  Forall positive_price col -> Forall (fun a => isnan a = false) col.
Proof.
  intros H. eapply Forall_impl; [| exact H].
  intros a. apply positive_price_notna.
Qed.

Lemma positive_ratio (col : list float) (t : nat) :
  Forall positive_price col ->
  (S t < length col)%nat ->
  fsub (fdiv (nth (S t) col NaN) (nth t col NaN)) (Fin 1) =
  Fin (to_R (nth (S t) col NaN) / to_R (nth t col NaN) - 1).
Proof.
  intros Hc Ht.
  rewrite Forall_forall in Hc.
  destruct (Hc (nth (S t) col NaN)) as [x [Ex Hx]]; [apply nth_In; lia |].
  destruct (Hc (nth t col NaN)) as [y [Ey Hy]]; [apply nth_In; lia |].
  rewrite Ex, Ey. simpl to_R.
  rewrite fdiv_fin by lra. reflexivity.
Qed.

Lemma nth_returns (prices : PriceTable) (i : nat) :
  nth i (returns prices) [] = pct_change (nth i prices []).
Proof. unfold returns. apply (map_nth pct_change prices [] i). Qed.

(** C2 (amended). For a price table whose sequences all have length
    [L >= 2] and hold positive finite prices, [buildReturns] returns for each
    asset a sequence of length [L]: its first entry is undefined (NaN), and
    once that entry is left out the remaining sequence has length [L - 1]
    with entry [t - 1] equal to [price[t] / price[t-1] - 1] for every [t] from
    1 to [L - 1]. *)
Theorem buildReturns_keeps_first_row (prices : PriceTable) (L i t : nat) :
  (2 <= L)%nat ->
  (forall col, In col prices -> length col = L /\ Forall positive_price col) ->
  (i < length prices)%nat ->
  (1 <= t <= L - 1)%nat ->
  exists rets,
    buildReturns prices = Returned rets /\
    length rets = length prices /\
    length (nth i rets []) = L /\
    nth 0 (nth i rets []) (Fin 0) = NaN /\
    length (tl (nth i rets [])) = (L - 1)%nat /\
    nth (t - 1) (tl (nth i rets [])) NaN =
      Fin (to_R (nth t (nth i prices []) NaN)
           / to_R (nth (t - 1) (nth i prices []) NaN) - 1).
Proof.
  intros HL Hp Hi Ht.
  exists (returns prices). split; [reflexivity |].
  split; [unfold returns; apply length_map |].
  rewrite nth_returns.
  destruct (Hp (nth i prices [])) as [Hlen Hpos]; [apply nth_In; exact Hi |].
  rewrite pct_change_dropped by (try apply Forall_positive_notna; try lia; assumption).
  simpl tl. simpl length. rewrite length_returns_dropped_col, Hlen.
  split; [lia |]. split; [reflexivity |]. split; [reflexivity |].
  destruct t as [| t']; [lia |].
  simpl Nat.sub. rewrite Nat.sub_0_r.
  rewrite nth_returns_dropped_col by lia.
  apply positive_ratio; [assumption | lia].
Qed.

Lemma buildReturns_keeps_first_row_witness :
  exists rets,
    buildReturns [[Fin 1; Fin 2; Fin 4]] = Returned rets /\
    length rets = 1%nat /\
    length (nth 0 rets []) = 3%nat /\
    nth 0 (nth 0 rets []) (Fin 0) = NaN /\
    length (tl (nth 0 rets [])) = 2%nat /\
    nth 1 (tl (nth 0 rets [])) NaN = Fin (4 / 2 - 1).
Proof.
  apply (buildReturns_keeps_first_row [[Fin 1; Fin 2; Fin 4]] 3 0 2).
  - lia.
  - intros col [<- | []]. split; [reflexivity |].
    repeat constructor; eexists; (split; [reflexivity | lra]).
  - simpl; lia.
  - lia.
Defined.

(** C2, as worded, fails on the two-day table [1, 2]: the returned sequence
    has length 2, not 1, and its entry 0 is NaN, not [2/1 - 1]. *)
Lemma buildReturns_length_counterexample :
  Forall (Forall positive_price) [[Fin 1; Fin 2]] /\
  buildReturns [[Fin 1; Fin 2]] = Returned [[NaN; Fin 1]] /\
  length [NaN; Fin 1] <> (2 - 1)%nat /\
  nth 0 [NaN; Fin 1] (Fin 0) <> Fin (2 / 1 - 1).
Proof.
  split; [| split; [| split]].
  - repeat constructor; eexists; (split; [reflexivity | lra]).
  - cbv [buildReturns returns pct_change ffill ffill_from isnan shift
         firstn length combine map fst snd].
    rewrite fdiv_fin by lra. cbv [fdiv fsub fneg fadd].
    replace (2 / 1 + - (1)) with 1 by lra. reflexivity.
  - simpl. lia.
  - simpl. discriminate.
Qed.

(** C8 (amended). [buildReturns] validates nothing and raises nothing: for
    every price table, whatever the lengths and the prices, it returns a
    table with one sequence per asset, each as long as the asset's price
    sequence. *)
Theorem buildReturns_never_fails (prices : PriceTable) :
  (forall e, buildReturns prices <> Raised e) /\
  exists rets,
    buildReturns prices = Returned rets /\
    length rets = length prices /\
    forall i, length (nth i rets []) = length (nth i prices []).
Proof.
  split; [intros e; discriminate |].
  exists (returns prices). split; [reflexivity |].
  split; [unfold returns; apply length_map |].
  intros i. rewrite nth_returns. apply length_pct_change.
Qed.

(** C8, as worded, fails: a one-day sequence gives a single NaN return and no
    [InsufficientDataError]; a zero price gives returns -1 and +inf and no
    [InvalidPriceError]. *)
Lemma buildReturns_no_validation_counterexample :
  buildReturns [[Fin 5]] = Returned [[NaN]] /\
  buildReturns [[Fin 5]] <> Raised InsufficientDataError /\
  buildReturns [[Fin 1; Fin 0; Fin 2]] = Returned [[NaN; Fin (-1); PInf]] /\
  buildReturns [[Fin 1; Fin 0; Fin 2]] <> Raised InvalidPriceError.
Proof.
  split; [reflexivity |]. split; [discriminate |]. split; [| discriminate].
  cbv [buildReturns returns pct_change ffill ffill_from isnan shift
       firstn length combine map fst snd].
  rewrite fdiv_fin by lra.
  cbv [fdiv]. rewrite Rsign_zero. rewrite Rsign_pos by lra.
  cbv [fsub fneg fadd inf_of_sign].
  replace (0 / 1 + - (1)) with (-1) by lra. reflexivity.
Qed.

(** ** Statistics skip the undefined first row *)

Lemma nanmean_skip_nan (col : list float) : nanmean (NaN :: col) = nanmean col.
Proof. reflexivity. Qed.

Lemma nancorr_pair_skip_nan (x y : list float) :
  nancorr_pair (NaN :: x) (NaN :: y) = nancorr_pair x y.
Proof. reflexivity. Qed.

Lemma nth_cons_table (rets : ReturnTable) (i : nat) :
  (i < length rets)%nat ->
  nth i (map (cons NaN) rets) [] = NaN :: nth i rets [].
Proof. intros H. apply nth_map_in. exact H. Qed.

Lemma cov_entry_skip_nan (rets : ReturnTable) (i j : nat) :
  (i < length rets)%nat ->
  (j < length rets)%nat ->
  cov_entry (map (cons NaN) rets) i j = cov_entry rets i j.
Proof.
  intros Hi Hj. unfold cov_entry.
  rewrite !nth_cons_table by assumption.
  rewrite !nancorr_pair_skip_nan. reflexivity.
Qed.

Lemma cov_skip_nan (rets : ReturnTable) : cov (map (cons NaN) rets) = cov rets.
Proof.
  unfold cov. rewrite length_map.
  apply map_ext_in. intros i Hi. apply in_seq in Hi.
  apply map_ext_in. intros j Hj. apply in_seq in Hj.
  apply cov_entry_skip_nan; lia.
Qed.

Lemma mean_returns_skip_nan (rets : ReturnTable) :
  mean_returns (map (cons NaN) rets) = mean_returns rets.
Proof.
  unfold mean_returns. rewrite map_map.
  apply map_ext. intros col. apply nanmean_skip_nan.
Qed.

Lemma returns_cons_dropped (prices : PriceTable) (L : nat) :
  (2 <= L)%nat ->
  (forall col, In col prices -> length col = L /\ Forall positive_price col) ->
  returns prices = map (cons NaN) (returns_dropped prices).
Proof.
  intros HL Hp. unfold returns, returns_dropped. rewrite map_map.
  apply map_ext_in. intros col Hcol.
  destruct (Hp col Hcol) as [Hlen Hpos].
  apply pct_change_dropped; [apply Forall_positive_notna; assumption | lia].
Qed.

(** C10. For a price table of positive finite prices with sequences of
    length at least 2, the table that [pct_change] produces, with its NaN
    first row, has the same per-asset means, the same covariance matrix and
    hence the same portfolio mean and standard deviation as the table with
    the first observation dropped. *)
Theorem returns_refines_dropped
  (prices : PriceTable) (L : nat) (weights : PortfolioWeights) :
  (2 <= L)%nat ->
  (forall col, In col prices -> length col = L /\ Forall positive_price col) ->
  mean_returns (returns prices) = mean_returns (returns_dropped prices) /\
  cov (returns prices) = cov (returns_dropped prices) /\
  aggregate (returns prices) weights =
    aggregate (returns_dropped prices) weights.
Proof.
  intros HL Hp.
  rewrite (returns_cons_dropped prices L HL Hp).
  assert (Hm := mean_returns_skip_nan (returns_dropped prices)).
  assert (Hc := cov_skip_nan (returns_dropped prices)).
  split; [exact Hm |]. split; [exact Hc |].
  unfold aggregate. rewrite Hm, Hc. reflexivity.
Qed.

Lemma returns_refines_dropped_witness :
  let prices := [[Fin 1; Fin 2; Fin 4]; [Fin 2; Fin 2; Fin 3]] in
  let weights := [Fin (1 / 2); Fin (1 / 2)] in
  mean_returns (returns prices) = mean_returns (returns_dropped prices) /\
  cov (returns prices) = cov (returns_dropped prices) /\
  aggregate (returns prices) weights =
    aggregate (returns_dropped prices) weights.
Proof.
  apply (returns_refines_dropped
           [[Fin 1; Fin 2; Fin 4]; [Fin 2; Fin 2; Fin 3]] 3
           [Fin (1 / 2); Fin (1 / 2)]).
  - lia.
  - intros col [<- | [<- | []]]; (split; [reflexivity |]);
      repeat constructor; eexists; (split; [reflexivity | lra]).
Defined.

(** ** Sums of reals *)

Lemma Rsum_app (l l' : list R) : Rsum (l ++ l') = Rsum l + Rsum l'.
Proof.
  induction l as [| a l IH]; simpl.
  - lra.
  - rewrite IH. lra.
Qed.

Lemma Rsum_map_plus {A : Type} (f g : A -> R) (l : list A) :
  Rsum (map (fun a => f a + g a) l) = Rsum (map f l) + Rsum (map g l).
Proof.
  induction l as [| a l IH]; simpl.
  - lra.
  - rewrite IH. lra.
Qed.

Lemma Rsum_map_scal {A : Type} (c : R) (f : A -> R) (l : list A) :
  Rsum (map (fun a => c * f a) l) = c * Rsum (map f l).
Proof.
  induction l as [| a l IH]; simpl.
  - lra.
  - rewrite IH. lra.
Qed.

Lemma Rsum_map_const {A : Type} (c : R) (l : list A) :
  Rsum (map (fun _ => c) l) = INR (length l) * c.
Proof.
  induction l as [| a l IH].
  - simpl. lra.
  - change (c + Rsum (map (fun _ => c) l) = INR (S (length l)) * c).
    rewrite IH, S_INR. lra.
Qed.

(** The centred co-moment in terms of the raw sums. *)
Lemma centred_comoment (a b : R) (h : list (R * R)) :
  Rsum (map (fun p => (fst p - a) * (snd p - b)) h) =
  Rsum (map (fun p => fst p * snd p) h)
  - a * Rsum (map snd h) - b * Rsum (map fst h)
  + INR (length h) * a * b.
Proof.
  induction h as [| [x y] h IH].
  - simpl. lra.
  - change (length ((x, y) :: h)) with (S (length h)).
    rewrite S_INR. simpl. rewrite IH. lra.
Qed.

(** ** Welford's update computes the sample covariance *)

Lemma welford_inv_init : welford_inv welford0 [].
Proof. unfold welford_inv, welford0. simpl. repeat split; lra. Qed.

Lemma welford_step_finite (s : welford) (vx vy : R) (h : list (R * R)) :
  welford_inv s h ->
  welford_inv (welford_step s (Fin vx, Fin vy)) (h ++ [(vx, vy)]).
Proof.
  intros (Hn & Hx & Hy & Hc).
  unfold welford_inv, welford_step. simpl fst; simpl snd. simpl isfinite.
  simpl andb. cbv iota. simpl to_R.
  cbv [nobs meanx meany covxy].
  fold (nobs s) (meanx s) (meany s) (covxy s).
  rewrite !map_app, !Rsum_app, length_app. simpl length. simpl map. simpl Rsum.
  replace (length h + 1)%nat with (S (length h)) by lia.
  rewrite Hn, S_INR.
  assert (Hpos : INR (length h) + 1 <> 0) by (pose proof (pos_INR (length h)); lra).
  split; [reflexivity |].
  split; [| split].
  - rewrite <- Hx. field. exact Hpos.
  - rewrite <- Hy. field. exact Hpos.
  - rewrite Hc. field. exact Hpos.
Qed.

Lemma welford_step_skip (s : welford) (p : float * float) :
  both_finite p = false -> welford_step s p = s.
Proof. unfold both_finite, welford_step. intros ->. reflexivity. Qed.

Lemma both_finite_inv (p : float * float) :
  both_finite p = true -> exists vx vy, p = (Fin vx, Fin vy).
Proof.
  destruct p as [[vx | | |] [vy | | |]]; simpl; try discriminate.
  intros _. exists vx, vy. reflexivity.
Qed.

Lemma obs_of_finite (vx vy : R) (rows : list (float * float)) :
  obs_of ((Fin vx, Fin vy) :: rows) = (vx, vy) :: obs_of rows.
Proof. reflexivity. Qed.

Lemma obs_of_skip (p : float * float) (rows : list (float * float)) :
  both_finite p = false -> obs_of (p :: rows) = obs_of rows.
Proof. intros E. unfold obs_of. simpl filter. rewrite E. reflexivity. Qed.

Lemma welford_fold_inv (rows : list (float * float)) :
  forall s h,
    welford_inv s h ->
    welford_inv (fold_left welford_step rows s) (h ++ obs_of rows).
Proof.
  induction rows as [| p rows IH]; intros s h Hinv.
  - unfold obs_of. simpl. rewrite app_nil_r. exact Hinv.
  - simpl fold_left.
    destruct (both_finite p) eqn:E.
    + destruct (both_finite_inv p E) as (vx & vy & ->).
      rewrite obs_of_finite.
      replace (h ++ (vx, vy) :: obs_of rows)
        with ((h ++ [(vx, vy)]) ++ obs_of rows)
        by (rewrite <- app_assoc; reflexivity).
      apply IH. apply welford_step_finite. exact Hinv.
    + rewrite welford_step_skip by exact E.
      rewrite obs_of_skip by exact E. apply IH. exact Hinv.
Qed.

Lemma paired_obs_obs_of (x y : list float) :
  paired_obs x y = obs_of (combine x y).
Proof. reflexivity. Qed.

Lemma welford_inv_paired (x y : list float) :
  welford_inv (fold_left welford_step (combine x y) welford0) (paired_obs x y).
Proof.
  rewrite paired_obs_obs_of.
  apply (welford_fold_inv (combine x y) welford0 []).
  apply welford_inv_init.
Qed.

(** With at least two joint observations the entry is the sample
    covariance; with fewer it is NaN. *)
Lemma nancorr_pair_sample_cov (x y : list float) :
  (2 <= length (paired_obs x y))%nat ->
  nancorr_pair x y = Fin (sample_cov (paired_obs x y)).
Proof.
  intros Hn.
  destruct (welford_inv_paired x y) as (En & Ex & Ey & Ec).
  unfold nancorr_pair. cbv zeta.
  set (s := fold_left welford_step (combine x y) welford0) in *.
  set (h := paired_obs x y) in *.
  rewrite En.
  assert (H2 : 2 <= INR (length h)).
  { change 2 with (INR 2). apply le_INR. exact Hn. }
  destruct (length h <? 1)%nat eqn:E1; [apply Nat.ltb_lt in E1; lia |].
  rewrite Rcmp_gt by lra.
  f_equal. unfold sample_cov, Rmean. cbv zeta.
  rewrite centred_comoment, Ec, <- Ex, <- Ey, !length_map.
  field. lra.
Qed.

Lemma nancorr_pair_few (x y : list float) :
  (length (paired_obs x y) <= 1)%nat ->
  nancorr_pair x y = NaN.
Proof.
  intros Hn.
  destruct (welford_inv_paired x y) as (En & _).
  unfold nancorr_pair. cbv zeta.
  set (s := fold_left welford_step (combine x y) welford0) in *.
  set (h := paired_obs x y) in *.
  rewrite En.
  destruct (length h <? 1)%nat eqn:E1; [reflexivity |].
  apply Nat.ltb_ge in E1.
  replace (length h) with 1%nat by lia.
  rewrite Rcmp_eq by (simpl; lra). reflexivity.
Qed.

(** ** Shape, symmetry and diagonal of the covariance matrix *)

Lemma length_cov (rets : ReturnTable) : length (cov rets) = length rets.
Proof. unfold cov. rewrite length_map, length_seq. reflexivity. Qed.

Lemma nth_cov_row (rets : ReturnTable) (i : nat) :
  (i < length rets)%nat ->
  nth i (cov rets) [] =
  map (fun j => cov_entry rets i j) (seq 0 (length rets)).
Proof. intros H. unfold cov. rewrite nth_seq_map by exact H. reflexivity. Qed.

Lemma nth_cov (rets : ReturnTable) (i j : nat) :
  (i < length rets)%nat ->
  (j < length rets)%nat ->
  nth j (nth i (cov rets) []) NaN = cov_entry rets i j.
Proof.
  intros Hi Hj. rewrite nth_cov_row by exact Hi.
  rewrite nth_seq_map by exact Hj. reflexivity.
Qed.


Lemma obs_of_swap (x : list float) :
  forall y, obs_of (combine y x) = map swap (obs_of (combine x y)).
Proof.
  induction x as [| a x IH]; intros [| b y]; try reflexivity.
  simpl combine.
  destruct a as [va | | |], b as [vb | | |];
    first [ rewrite !obs_of_finite; simpl map; rewrite IH; reflexivity
          | rewrite !obs_of_skip by reflexivity; apply IH ].
Qed.

Lemma paired_obs_swap (x y : list float) :
  paired_obs y x = map swap (paired_obs x y).
Proof. rewrite !paired_obs_obs_of. apply obs_of_swap. Qed.

Lemma sample_cov_swap (h : list (R * R)) :
  sample_cov (map swap h) = sample_cov h.
Proof.
  unfold sample_cov, Rmean. cbv zeta.
  rewrite !centred_comoment, !map_map, !length_map.
  change (map (fun x => fst (swap x)) h) with (map snd h).
  change (map (fun x => snd (swap x)) h) with (map fst h).
  replace (map (fun x => fst (swap x) * snd (swap x)) h)
    with (map (fun p => fst p * snd p) h)
    by (apply map_ext; intros [u v]; simpl; ring).
  unfold Rdiv. ring.
Qed.

Lemma nancorr_pair_comm (x y : list float) :
  nancorr_pair y x = nancorr_pair x y.
Proof.
  destruct (le_lt_dec 2 (length (paired_obs x y))) as [H | H].
  - rewrite (nancorr_pair_sample_cov x y H).
    rewrite nancorr_pair_sample_cov
      by (rewrite paired_obs_swap, length_map; exact H).
    rewrite paired_obs_swap, sample_cov_swap. reflexivity.
  - rewrite (nancorr_pair_few x y) by lia.
    apply nancorr_pair_few. rewrite paired_obs_swap, length_map. lia.
Qed.

Lemma cov_entry_pair (rets : ReturnTable) (i j : nat) :
  cov_entry rets i j = nancorr_pair (nth i rets []) (nth j rets []).
Proof.
  unfold cov_entry. destruct (j <=? i)%nat; [reflexivity |].
  apply nancorr_pair_comm.
Qed.

Lemma paired_obs_diag (c : list float) :
  paired_obs c c = map (fun v => (v, v)) (observed c).
Proof.
  rewrite paired_obs_obs_of. unfold observed.
  induction c as [| a c IH]; [reflexivity |].
  simpl combine.
  destruct a as [va | | |];
    first [ rewrite obs_of_finite; simpl; rewrite IH; reflexivity
          | rewrite obs_of_skip by reflexivity; simpl; exact IH ].
Qed.

Lemma sample_cov_diag (xs : list R) :
  sample_cov (map (fun v => (v, v)) xs) = sample_var xs.
Proof.
  unfold sample_cov, sample_var, Rmean. cbv zeta.
  rewrite !map_map, !length_map. simpl. rewrite map_id. reflexivity.
Qed.

Lemma length_paired_obs_diag (c : list float) :
  length (paired_obs c c) = length (observed c).
Proof. rewrite paired_obs_diag, length_map. reflexivity. Qed.

Lemma cov_entry_few (rets : ReturnTable) (i j : nat) :
  (i < length rets)%nat ->
  (j < length rets)%nat ->
  (length (paired_obs (nth i rets []) (nth j rets [])) <= 1)%nat ->
  nth j (nth i (cov rets) []) NaN = NaN.
Proof.
  intros Hi Hj H. rewrite nth_cov by assumption.
  rewrite cov_entry_pair. apply nancorr_pair_few. exact H.
Qed.



(** ** Dot products on finite data *)

Lemma fold_fadd_Fin (l : list R) (a : R) :
  fold_left fadd (map Fin l) (Fin a) = Fin (a + Rsum l).
Proof.
  revert a. induction l as [| x l IH]; intros a; simpl.
  - f_equal. lra.
  - rewrite IH. f_equal. lra.
Qed.

Lemma fsum_Fin (l : list R) : fsum (map Fin l) = Fin (Rsum l).
Proof. unfold fsum. rewrite fold_fadd_Fin. f_equal. lra. Qed.

Lemma combine_Fin (u v : list R) :
  combine (map Fin u) (map Fin v) =
  map (fun p => (Fin (fst p), Fin (snd p))) (combine u v).
Proof.
  revert v. induction u as [| a u IH]; intros [| b v]; simpl; try reflexivity.
  rewrite IH. reflexivity.
Qed.

Lemma fdot_Fin (u v : list R) :
  fdot (map Fin u) (map Fin v) =
  Fin (Rsum (map (fun p => fst p * snd p) (combine u v))).
Proof.
  unfold fdot. rewrite combine_Fin, map_map.
  rewrite <- fsum_Fin, map_map. reflexivity.
Qed.

Lemma dot_spec_combine (u : list R) :
  forall v, length u = length v ->
  dot_spec u v = Rsum (map (fun p => fst p * snd p) (combine u v)).
Proof.
  unfold dot_spec.
  induction u as [| a u IH]; intros [| b v] H; try discriminate H.
  - reflexivity.
  - cbn [length seq map]. rewrite <- seq_shift, map_map.
    cbn [nth combine map Rsum fold_right fst snd].
    rewrite <- IH by (simpl in H; lia). reflexivity.
Qed.

Lemma fdot_dot_spec (u v : list R) :
  length u = length v ->
  fdot (map Fin u) (map Fin v) = Fin (dot_spec u v).
Proof. intros H. rewrite fdot_Fin, dot_spec_combine by exact H. reflexivity. Qed.

Lemma Rsum_exchange {A B : Type} (f : A -> B -> R) (la : list A) (lb : list B) :
  Rsum (map (fun a => Rsum (map (fun b => f a b) lb)) la) =
  Rsum (map (fun b => Rsum (map (fun a => f a b) la)) lb).
Proof.
  induction la as [| a la IH]; simpl.
  - rewrite Rsum_map_const. lra.
  - rewrite IH, <- Rsum_map_plus. reflexivity.
Qed.

Lemma Rsum_ext_in {A : Type} (f g : A -> R) (l : list A) :
  (forall a, In a l -> f a = g a) -> Rsum (map f l) = Rsum (map g l).
Proof. intros H. f_equal. apply map_ext_in. exact H. Qed.

(** ** The quadratic form on a finite matrix *)

Lemma nth_column (S : list (list R)) (i j : nat) :
  (i < length S)%nat ->
  nth i (map (fun row => nth j row 0) S) 0 = nth j (nth i S []) 0.
Proof.
  intros Hi.
  apply (nth_map_in (fun row => nth j row 0) S i [] 0). exact Hi.
Qed.

Lemma column_Fin (S : list (list R)) (K j : nat) :
  (forall row, In row S -> length row = K) ->
  (j < K)%nat ->
  column (map (map Fin) S) j = map Fin (map (fun row => nth j row 0) S).
Proof.
  intros HS Hj. unfold column. rewrite !map_map.
  apply map_ext_in. intros row Hrow.
  apply (nth_map_in Fin row j 0 NaN). rewrite (HS row Hrow). exact Hj.
Qed.

Lemma ncols_Fin (S : list (list R)) (K : nat) :
  (forall row, In row S -> length row = K) ->
  length S = K ->
  ncols (map (map Fin) S) = K.
Proof.
  intros HS HK. destruct S as [| row S]; simpl.
  - exact HK.
  - rewrite length_map. apply HS. left. reflexivity.
Qed.

Lemma np_dot_vec_mat_Fin (w : list R) (S : list (list R)) :
  length S = length w ->
  (forall row, In row S -> length row = length w) ->
  np_dot_vec_mat (map Fin w) (map (map Fin) S) =
  Returned (map Fin (map (fun j =>
    Rsum (map (fun i => nth i w 0 * nth j (nth i S []) 0)
              (seq 0 (length w))))
    (seq 0 (length w)))).
Proof.
  intros HS Hrows. unfold np_dot_vec_mat.
  rewrite !length_map, HS, Nat.eqb_refl.
  rewrite (ncols_Fin S (length w) Hrows HS).
  f_equal. rewrite map_map. apply map_ext_in. intros j Hj.
  apply in_seq in Hj.
  rewrite (column_Fin S (length w) j Hrows) by lia.
  rewrite fdot_dot_spec by (rewrite length_map; lia).
  f_equal. unfold dot_spec. apply Rsum_ext_in. intros i Hi.
  apply in_seq in Hi.
  rewrite (nth_column S i j) by lia.
  reflexivity.
Qed.

Lemma quadratic_form_Fin (w : list R) (S : list (list R)) :
  length S = length w ->
  (forall row, In row S -> length row = length w) ->
  quadratic_form (map Fin w) (map (map Fin) S) = Returned (Fin (quad_form w S)).
Proof.
  intros HS Hrows. unfold quadratic_form.
  rewrite (np_dot_vec_mat_Fin w S HS Hrows). simpl bind.
  unfold np_dot. rewrite !length_map, length_seq, Nat.eqb_refl.
  rewrite fdot_dot_spec by (rewrite length_map, length_seq; reflexivity).
  f_equal. f_equal. unfold dot_spec, quad_form.
  rewrite length_map, length_seq.
  rewrite (Rsum_exchange
             (fun i j => nth i w 0 * nth j (nth i S []) 0 * nth j w 0)).
  apply Rsum_ext_in. intros j Hj. apply in_seq in Hj.
  rewrite nth_seq_map by lia. simpl Nat.add.
  rewrite Rmult_comm, <- Rsum_map_scal.
  apply Rsum_ext_in. intros i _. ring.
Qed.

Lemma cov_rows (rets : ReturnTable) (row : list float) :
  In row (cov rets) -> length row = length rets.
Proof.
  unfold cov. intros H. apply in_map_iff in H. destruct H as (i & <- & _).
  rewrite length_map, length_seq. reflexivity.
Qed.

Lemma aggregate_Fin (rets : ReturnTable) (w mu : list R) (S : list (list R)) :
  mean_returns rets = map Fin mu ->
  cov rets = map (map Fin) S ->
  length w = length rets ->
  aggregate rets (map Fin w) =
  Returned (mkStats (Fin (dot_spec mu w)) (fsqrt (Fin (quad_form w S)))).
Proof.
  intros Hm Hc Hlen.
  assert (Hmu : length mu = length w).
  { rewrite Hlen, <- (length_map Fin mu), <- Hm.
    unfold mean_returns. apply length_map. }
  assert (HS : length S = length w).
  { rewrite Hlen, <- (length_map (map Fin) S), <- Hc. apply length_cov. }
  assert (Hrows : forall row, In row S -> length row = length w).
  { intros row Hrow. rewrite Hlen, <- (length_map Fin row).
    apply cov_rows. rewrite Hc. apply in_map. exact Hrow. }
  unfold aggregate, port_mean, port_stdev. cbv zeta.
  rewrite Hm, Hc.
  unfold np_dot. rewrite !length_map, Hmu, Nat.eqb_refl. simpl bind.
  rewrite (fdot_dot_spec mu w Hmu).
  rewrite (quadratic_form_Fin w S HS Hrows). reflexivity.
Qed.

(** ** Means and covariances of a table without infinite returns *)

Lemma filter_notna_observed (col : list float) :
  Forall missing_or_finite col ->
  filter notna col = map Fin (observed col).
Proof.
  unfold observed.
  induction 1 as [| a col Ha Hcol IH]; [reflexivity |].
  destruct Ha as [-> | Ha].
  - simpl. exact IH.
  - destruct a; try discriminate Ha. simpl. rewrite IH. reflexivity.
Qed.

Lemma nanmean_observed (col : list float) :
  Forall missing_or_finite col ->
  (1 <= length (observed col))%nat ->
  nanmean col = Fin (Rmean (observed col)).
Proof.
  intros Hcol Hn. unfold nanmean. cbv zeta.
  rewrite (filter_notna_observed col Hcol), fsum_Fin, length_map.
  unfold of_nat, Rmean. apply fdiv_fin.
  apply not_0_INR. lia.
Qed.

Lemma map_as_seq {A B : Type} (f : A -> B) (l : list A) (d : A) :
  map f l = map (fun i => f (nth i l d)) (seq 0 (length l)).
Proof.
  apply (nth_ext _ _ (f d) (f d)).
  - rewrite !length_map, length_seq. reflexivity.
  - intros n Hn. rewrite length_map in Hn.
    rewrite map_nth, nth_seq_map by exact Hn. reflexivity.
Qed.

Lemma mean_returns_mean_vector (rets : ReturnTable) :
  (forall col, In col rets ->
     Forall missing_or_finite col /\ (1 <= length (observed col))%nat) ->
  mean_returns rets = map Fin (mean_vector rets).
Proof.
  intros H. unfold mean_returns, mean_vector. rewrite map_map.
  apply map_ext_in. intros col Hcol.
  destruct (H col Hcol) as [Hf Hn]. apply nanmean_observed; assumption.
Qed.

Lemma cov_sample_cov_matrix (rets : ReturnTable) :
  (forall i j, (i < length rets)%nat -> (j < length rets)%nat ->
     (2 <= length (paired_obs (nth i rets []) (nth j rets [])))%nat) ->
  cov rets = map (map Fin) (sample_cov_matrix rets).
Proof.
  intros H. unfold cov, sample_cov_matrix.
  rewrite (map_as_seq _ rets []), map_map.
  apply map_ext_in. intros i Hi. apply in_seq in Hi.
  rewrite (map_as_seq _ rets []), map_map.
  apply map_ext_in. intros j Hj. apply in_seq in Hj.
  rewrite cov_entry_pair. apply nancorr_pair_sample_cov.
  apply H; lia.
Qed.


Lemma late_listing_observed (i j : nat) :
  (i < length late_listing_returns)%nat ->
  (j < length late_listing_returns)%nat ->
  (2 <= length (paired_obs (nth i late_listing_returns [])
                           (nth j late_listing_returns [])))%nat.
Proof.
  simpl length. intros Hi Hj.
  destruct i as [| [| i]]; [| | lia];
    (destruct j as [| [| j]]; [| | lia]); simpl; lia.
Qed.

Lemma late_listing_missing_or_finite (col : list float) :
  In col late_listing_returns -> Forall missing_or_finite col.
Proof.
  intros [<- | [<- | []]];
    repeat constructor; try (left; reflexivity); right; reflexivity.
Qed.


(** ** The statistics of the sample table *)

Lemma late_listing_buildReturns :
  buildReturns late_listing_prices = Returned late_listing_returns.
Proof.
  cbv [buildReturns returns late_listing_prices pct_change ffill ffill_from
       isnan shift firstn length combine map fst snd].
  rewrite !fdiv_fin by lra. cbv [fdiv fsub fneg fadd].
  replace (100 / 100 + - (1)) with 0 by lra.
  replace (110 / 100 + - (1)) with (1 / 10) by lra.
  replace (99 / 110 + - (1)) with (-1 / 10) by lra.
  replace (55 / 50 + - (1)) with (1 / 10) by lra.
  replace (99 / 2 / 55 + - (1)) with (-1 / 10) by lra.
  reflexivity.
Qed.

Lemma late_listing_means :
  mean_returns late_listing_returns = map Fin [0; 0].
Proof.
  rewrite mean_returns_mean_vector.
  - unfold mean_vector, late_listing_returns, Rmean, observed.
    cbn [map filter isfinite to_R length Rsum fold_right].
    replace ((0 + (1 / 10 + (-1 / 10 + 0))) / INR 3) with 0 by (simpl; lra).
    replace ((1 / 10 + (-1 / 10 + 0)) / INR 2) with 0 by (simpl; lra).
    reflexivity.
  - intros col Hcol. split; [apply late_listing_missing_or_finite; exact Hcol |].
    destruct Hcol as [<- | [<- | []]]; simpl; lia.
Qed.

Lemma sample_cov_three :
  sample_cov [(0, 0); (1 / 10, 1 / 10); (-1 / 10, -1 / 10)] = 1 / 100.
Proof. unfold sample_cov, Rmean. simpl. lra. Qed.

Lemma sample_cov_two :
  sample_cov [(1 / 10, 1 / 10); (-1 / 10, -1 / 10)] = 1 / 50.
Proof. unfold sample_cov, Rmean. simpl. lra. Qed.

Lemma late_listing_cov :
  cov late_listing_returns = map (map Fin) [[1 / 100; 1 / 50]; [1 / 50; 1 / 50]].
Proof.
  rewrite (cov_sample_cov_matrix _ late_listing_observed).
  unfold sample_cov_matrix, late_listing_returns, paired_obs.
  cbn [map combine filter isfinite andb fst snd to_R].
  rewrite sample_cov_three, sample_cov_two. reflexivity.
Qed.

(** ** The square root of the quadratic form *)

(** C6 (amended). [aggregate] does not clamp: when the quadratic form of
    the weights over the covariance matrix evaluates to a negative number,
    the square root is taken of that number as it is and the portfolio
    standard deviation returned is NaN; nothing fails. *)
Theorem aggregate_negative_form_is_nan
  (rets : ReturnTable) (weights : PortfolioWeights) (m : float) (x : R) :
  port_mean (mean_returns rets) weights = Returned m ->
  quadratic_form weights (cov rets) = Returned (Fin x) ->
  x < 0 ->
  aggregate rets weights = Returned (mkStats m NaN).
Proof.
  intros Hm Hq Hx.
  unfold aggregate, port_stdev. cbv zeta.
  rewrite Hm, Hq. cbn [bind].
  rewrite fsqrt_neg by exact Hx. reflexivity.
Qed.

Lemma late_listing_port_mean :
  port_mean (mean_returns late_listing_returns) [Fin 2; Fin (-1)]
  = Returned (Fin 0).
Proof.
  rewrite late_listing_means.
  change [Fin 2; Fin (-1)] with (map Fin [2; -1]).
  unfold port_mean, np_dot. rewrite !length_map. cbn [length Nat.eqb].
  rewrite (fdot_dot_spec [0; 0] [2; -1] eq_refl).
  do 2 f_equal. unfold dot_spec. simpl. lra.
Qed.

Lemma late_listing_quadratic_form :
  quadratic_form [Fin 2; Fin (-1)] (cov late_listing_returns)
  = Returned (Fin (-1 / 50)).
Proof.
  rewrite late_listing_cov.
  change [Fin 2; Fin (-1)] with (map Fin [2; -1]).
  rewrite (quadratic_form_Fin [2; -1] [[1 / 100; 1 / 50]; [1 / 50; 1 / 50]]).
  - do 2 f_equal. unfold quad_form. simpl. lra.
  - reflexivity.
  - intros row [<- | [<- | []]]; reflexivity.
Qed.

Lemma aggregate_negative_form_is_nan_witness :
  aggregate late_listing_returns [Fin 2; Fin (-1)]
  = Returned (mkStats (Fin 0) NaN).
Proof.
  apply (aggregate_negative_form_is_nan
           late_listing_returns [Fin 2; Fin (-1)] (Fin 0) (-1 / 50)).
  - exact late_listing_port_mean.
  - exact late_listing_quadratic_form.
  - lra.
Defined.

(** C6, as worded, fails on the sample table with weights [2, -1] (summing
    to 1): the pairwise covariance matrix [[0.01, 0.02], [0.02, 0.02]] is
    not positive semi-definite, the quadratic form is -0.02, and the standard
    deviation returned is NaN, not 0. *)
Lemma aggregate_no_clamp_counterexample :
  buildReturns late_listing_prices = Returned late_listing_returns /\
  quadratic_form [Fin 2; Fin (-1)] (cov late_listing_returns)
    = Returned (Fin (-1 / 50)) /\
  -1 / 50 < 0 /\
  aggregate late_listing_returns [Fin 2; Fin (-1)]
    = Returned (mkStats (Fin 0) NaN) /\
  aggregate late_listing_returns [Fin 2; Fin (-1)]
    <> Returned (mkStats (Fin 0) (Fin 0)).
Proof.
  assert (H : aggregate late_listing_returns [Fin 2; Fin (-1)]
              = Returned (mkStats (Fin 0) NaN)).
  { unfold aggregate, port_stdev. cbv zeta.
    rewrite late_listing_port_mean, late_listing_quadratic_form.
    cbn [bind]. rewrite fsqrt_neg by lra. reflexivity. }
  split; [exact late_listing_buildReturns |].
  split; [exact late_listing_quadratic_form |].
  split; [lra |]. split; [exact H |].
  rewrite H. discriminate.
Qed.

(** ** The quantile routine *)

Lemma fltb_Fin (x y : R) : x < y -> fltb (Fin x) (Fin y) = true.
Proof. intros H. unfold fltb. rewrite Rcmp_lt by exact H. reflexivity. Qed.

Lemma fltb_Fin_not (x y : R) : y <= x -> fltb (Fin x) (Fin y) = false.
Proof.
  intros H. unfold fltb. destruct (Rcmp x y) eqn:E; try reflexivity.
  apply Rcmp_Lt_inv in E. lra.
Qed.

Lemma feqb_Fin (x : R) : feqb (Fin x) (Fin x) = true.
Proof. unfold feqb. rewrite Rcmp_eq by reflexivity. reflexivity. Qed.

Lemma feqb_Fin_not (x y : R) : x <> y -> feqb (Fin x) (Fin y) = false.
Proof.
  intros H. unfold feqb. destruct (Rcmp x y) eqn:E; try reflexivity.
  apply Rcmp_Eq_inv in E. contradiction.
Qed.

Lemma norm_ppf_interior (q loc scale : R) :
  0 < q < 1 ->
  0 < scale ->
  norm_ppf (Fin q) (Fin loc) (Fin scale) = Fin (ndtri q * scale + loc).
Proof.
  intros [Hq0 Hq1] Hs. unfold norm_ppf. cbv zeta.
  rewrite (fltb_Fin 0 scale Hs), (feqb_Fin loc).
  rewrite (fltb_Fin 0 q Hq0), (fltb_Fin q 1 Hq1).
  reflexivity.
Qed.

Lemma norm_ppf_at_zero (loc scale : R) :
  0 < scale -> norm_ppf (Fin 0) (Fin loc) (Fin scale) = NInf.
Proof.
  intros Hs. unfold norm_ppf. cbv zeta.
  rewrite (fltb_Fin 0 scale Hs), (feqb_Fin loc).
  rewrite (fltb_Fin_not 0 0) by lra. rewrite (feqb_Fin 0).
  cbn [andb]. unfold fmul. rewrite Rsign_pos by exact Hs. reflexivity.
Qed.

Lemma norm_ppf_at_one (loc scale : R) :
  0 < scale -> norm_ppf (Fin 1) (Fin loc) (Fin scale) = PInf.
Proof.
  intros Hs. unfold norm_ppf. cbv zeta.
  rewrite (fltb_Fin 0 scale Hs), (feqb_Fin loc).
  rewrite (fltb_Fin_not 1 1) by lra.
  rewrite (feqb_Fin_not 1 0) by lra. rewrite (feqb_Fin 1).
  rewrite andb_false_r. cbn [andb].
  unfold fmul. rewrite Rsign_pos by exact Hs. reflexivity.
Qed.

Lemma norm_ppf_outside (q loc scale : R) :
  q < 0 \/ 1 < q -> norm_ppf (Fin q) (Fin loc) (Fin scale) = NaN.
Proof.
  intros Hq. unfold norm_ppf. cbv zeta.
  rewrite (feqb_Fin_not q 0) by lra. rewrite (feqb_Fin_not q 1) by lra.
  assert (E : fltb (Fin 0) (Fin q) && fltb (Fin q) (Fin 1) = false).
  { destruct Hq as [Hq | Hq].
    - rewrite (fltb_Fin_not 0 q) by lra. reflexivity.
    - rewrite (fltb_Fin_not q 1) by lra. apply andb_false_r. }
  rewrite E, !andb_false_r. reflexivity.
Qed.

Lemma norm_ppf_bad_scale (q loc : float) (scale : R) :
  scale <= 0 -> norm_ppf q loc (Fin scale) = NaN.
Proof.
  intros Hs. unfold norm_ppf. cbv zeta.
  rewrite (fltb_Fin_not 0 scale Hs). reflexivity.
Qed.

Lemma fsub_nan (a : float) : fsub a NaN = NaN.
Proof. destruct a; reflexivity. Qed.

(** ** Estimating the VaR *)

(** C5 (amended). When [stdValue = stdDev * initialInvestment] is exactly 0,
    [estimateVaR] has no case of its own: the zero goes to the quantile
    routine as its scale, the routine rejects a scale that is not positive
    and answers NaN, and the VaR returned is NaN, whatever the mean and the
    confidence level. *)
Theorem estimateVaR_zero_stdev_is_nan
  (stats : PortfolioStats) (params : RiskParameters) :
  investment_stdev (initialInvestment params) (stdDev stats) = Fin 0 ->
  estimateVaR stats params = Returned NaN.
Proof.
  intros H. unfold estimateVaR, percent_point, value_at_risk. cbv zeta.
  rewrite H, norm_ppf_bad_scale by lra.
  rewrite fsub_nan. reflexivity.
Qed.

Lemma zero_stdev_value :
  investment_stdev (Fin 1000) (Fin 0) = Fin 0.
Proof. unfold investment_stdev, fmul. f_equal. lra. Qed.

Lemma estimateVaR_zero_stdev_is_nan_witness :
  estimateVaR (mkStats (Fin (1 / 100)) (Fin 0))
              (mkParams (Fin (1 / 20)) (Fin 1000) 30)
  = Returned NaN.
Proof.
  apply (estimateVaR_zero_stdev_is_nan
           (mkStats (Fin (1 / 100)) (Fin 0))
           (mkParams (Fin (1 / 20)) (Fin 1000) 30)).
  exact zero_stdev_value.
Defined.

(** C5, as worded, fails for mean return 1%, standard deviation 0,
    investment 1000 and confidence level 5%: the VaR returned is NaN, not
    [1000 - (1 + 0.01) * 1000 = -10]. *)
Lemma estimateVaR_zero_stdev_counterexample :
  investment_stdev (Fin 1000) (Fin 0) = Fin 0 /\
  estimateVaR (mkStats (Fin (1 / 100)) (Fin 0))
              (mkParams (Fin (1 / 20)) (Fin 1000) 30)
    = Returned NaN /\
  estimateVaR (mkStats (Fin (1 / 100)) (Fin 0))
              (mkParams (Fin (1 / 20)) (Fin 1000) 30)
    <> Returned (Fin (1000 - (1 + 1 / 100) * 1000)).
Proof.
  assert (H : estimateVaR (mkStats (Fin (1 / 100)) (Fin 0))
                          (mkParams (Fin (1 / 20)) (Fin 1000) 30)
              = Returned NaN).
  { unfold estimateVaR, percent_point, value_at_risk. cbv zeta.
    cbn [initialInvestment stdDev mean confidenceLevel].
    rewrite zero_stdev_value, norm_ppf_bad_scale by lra. reflexivity. }
  split; [exact zero_stdev_value |]. split; [exact H |].
  rewrite H. discriminate.
Qed.

Lemma estimateVaR_Fin (m s I c : R) (h : nat) :
  estimateVaR (mkStats (Fin m) (Fin s)) (mkParams (Fin c) (Fin I) h) =
  Returned (fsub (Fin I) (norm_ppf (Fin c) (Fin ((1 + m) * I)) (Fin (I * s)))).
Proof. reflexivity. Qed.

(** C7 (amended). [estimateVaR] raises nothing for a confidence level
    outside (0,1).  For a finite mean, a positive standard deviation and a
    positive investment: a confidence level of exactly 0 returns the VaR
    +inf (the quantile is -inf), exactly 1 returns -inf, and a level below 0
    or above 1 returns NaN. *)
Theorem estimateVaR_outside_unit_interval (m s I c : R) (h : nat) :
  0 < s ->
  0 < I ->
  (c = 0 ->
   estimateVaR (mkStats (Fin m) (Fin s)) (mkParams (Fin c) (Fin I) h)
   = Returned PInf) /\
  (c = 1 ->
   estimateVaR (mkStats (Fin m) (Fin s)) (mkParams (Fin c) (Fin I) h)
   = Returned NInf) /\
  (c < 0 \/ 1 < c ->
   estimateVaR (mkStats (Fin m) (Fin s)) (mkParams (Fin c) (Fin I) h)
   = Returned NaN).
Proof.
  intros Hs HI.
  assert (Hsc : 0 < I * s) by (apply Rmult_lt_0_compat; assumption).
  rewrite estimateVaR_Fin.
  split; [| split].
  - intros ->. rewrite norm_ppf_at_zero by exact Hsc. reflexivity.
  - intros ->. rewrite norm_ppf_at_one by exact Hsc. reflexivity.
  - intros Hc. rewrite norm_ppf_outside by exact Hc. reflexivity.
Qed.

Lemma estimateVaR_outside_unit_interval_witness :
  estimateVaR (mkStats (Fin 0) (Fin 1)) (mkParams (Fin 0) (Fin 1000) 30)
    = Returned PInf /\
  estimateVaR (mkStats (Fin 0) (Fin 1)) (mkParams (Fin 1) (Fin 1000) 30)
    = Returned NInf /\
  estimateVaR (mkStats (Fin 0) (Fin 1)) (mkParams (Fin 2) (Fin 1000) 30)
    = Returned NaN.
Proof.
  split; [| split].
  - apply (estimateVaR_outside_unit_interval 0 1 1000 0 30); [lra | lra | reflexivity].
  - apply (estimateVaR_outside_unit_interval 0 1 1000 1 30); [lra | lra | reflexivity].
  - apply (estimateVaR_outside_unit_interval 0 1 1000 2 30); [lra | lra | right; lra].
Defined.

(** C7, as worded, fails for the notebook's portfolio figures with the
    confidence level set to 0 or to 1: [estimateVaR] returns +inf and -inf,
    and raises no [InvalidParameterError]. *)
Lemma estimateVaR_no_parameter_check_counterexample :
  estimateVaR (mkStats (Fin (1 / 100)) (Fin (1 / 50)))
              (mkParams (Fin 0) (Fin 1000) 30) = Returned PInf /\
  estimateVaR (mkStats (Fin (1 / 100)) (Fin (1 / 50)))
              (mkParams (Fin 0) (Fin 1000) 30)
    <> Raised InvalidParameterError /\
  estimateVaR (mkStats (Fin (1 / 100)) (Fin (1 / 50)))
              (mkParams (Fin 1) (Fin 1000) 30) = Returned NInf /\
  estimateVaR (mkStats (Fin (1 / 100)) (Fin (1 / 50)))
              (mkParams (Fin 1) (Fin 1000) 30)
    <> Raised InvalidParameterError.
Proof.
  rewrite !estimateVaR_Fin.
  rewrite norm_ppf_at_zero by lra. rewrite norm_ppf_at_one by lra.
  repeat split; try reflexivity; discriminate.
Qed.

(** ** The Normal distribution function *)

Lemma derive_two_atan (x : R) :
  derive two_atan (diff0 two_atan) x = 2 * (1 / (1 + x²)).
Proof.
  simpl. unfold derive, two_atan_derivable.
  rewrite derive_pt_scal, derive_pt_atan. reflexivity.
Qed.

Lemma gauss_pos (t : R) : 0 < gauss t.
Proof. apply exp_pos. Qed.

Lemma gauss_le_1 (t : R) : gauss t <= 1.
Proof.
  unfold gauss. rewrite <- exp_0.
  destruct (Req_dec t 0) as [-> | Ht].
  - right. f_equal. lra.
  - left. apply exp_increasing.
    pose proof (Rle_0_sqr t) as H. unfold Rsqr in H.
    assert (t * t <> 0) by (intros E; apply Rmult_integral in E; tauto).
    lra.
Qed.

(* exp (-u) <= 1 / (1 + u) for u >= 0 *)
Lemma gauss_le_datan (t : R) : gauss t <= 2 * (1 / (1 + t²)).
Proof.
  unfold gauss, Rsqr.
  pose proof (Rle_0_sqr t) as H. unfold Rsqr in H.
  set (u := t * t) in *.
  pose proof (exp_ineq1_le (u / 2)) as He.
  assert (Hp : 0 < exp (u / 2)) by apply exp_pos.
  replace (- u / 2) with (- (u / 2)) by lra.
  rewrite exp_Ropp.
  apply Rle_trans with (/ (1 + u / 2)).
  - apply Rinv_le_contravar; lra.
  - apply Rle_trans with (2 * / (2 + u)).
    + right. field. lra.
    + unfold Rdiv. rewrite Rmult_1_l.
      apply Rmult_le_compat_l; [lra |].
      apply Rinv_le_contravar; lra.
Qed.

Lemma gauss_area_diff (x y : R) :
  gauss_area y - gauss_area x = RiemannInt (gauss_integrable x y).
Proof.
  unfold gauss_area.
  rewrite <- (RiemannInt_P26 (gauss_integrable 0 x) (gauss_integrable x y)
                (gauss_integrable 0 y)).
  lra.
Qed.

Lemma gauss_area_0 : gauss_area 0 = 0.
Proof. unfold gauss_area. apply RiemannInt_P9. Qed.

Lemma gauss_area_diff_le (x y : R) :
  x <= y -> gauss_area y - gauss_area x <= 2 * atan y - 2 * atan x.
Proof.
  intros Hxy. rewrite gauss_area_diff.
  change (2 * atan y - 2 * atan x) with (two_atan y - two_atan x).
  rewrite <- (@FTC_Riemann two_atan x y (RiemannInt_P32 two_atan x y)).
  apply RiemannInt_P19; [exact Hxy |].
  intros t _. rewrite derive_two_atan. apply gauss_le_datan.
Qed.

Lemma gauss_area_diff_pos (x y : R) :
  x < y -> 0 < gauss_area y - gauss_area x.
Proof.
  intros Hxy. rewrite gauss_area_diff.
  set (m := exp (- (x * x + y * y) / 2)).
  assert (Hm : 0 < m) by apply exp_pos.
  assert (Hle : RiemannInt (RiemannInt_P14 x y m)
                <= RiemannInt (gauss_integrable x y)).
  { apply RiemannInt_P19; [lra |].
    intros t [Hx Hy]. unfold fct_cte, gauss, m.
    assert (H : t * t <= x * x + y * y).
    { destruct (Rle_dec 0 t) as [Ht | Ht].
      - assert (0 <= (y - t) * (y + t)) by (apply Rmult_le_pos; lra).
        pose proof (Rle_0_sqr x) as Hxx. unfold Rsqr in Hxx. lra.
      - assert (0 <= (t - x) * (- (t + x))) by (apply Rmult_le_pos; lra).
        pose proof (Rle_0_sqr y) as Hyy. unfold Rsqr in Hyy. lra. }
    assert (E : - (x * x + y * y) / 2 <= - (t * t) / 2) by lra.
    destruct E as [E | E]; [left; apply exp_increasing; exact E | right; rewrite E; reflexivity]. }
  rewrite RiemannInt_P15 in Hle.
  assert (0 < m * (y - x)) by (apply Rmult_lt_0_compat; lra).
  lra.
Qed.

Lemma gauss_area_diff_lip (x y : R) :
  x <= y -> gauss_area y - gauss_area x <= y - x.
Proof.
  intros Hxy. rewrite gauss_area_diff.
  replace (y - x) with (1 * (y - x)) by lra.
  rewrite <- (RiemannInt_P15 (RiemannInt_P14 x y 1)).
  apply RiemannInt_P19; [exact Hxy |].
  intros t _. unfold fct_cte. apply gauss_le_1.
Qed.

Lemma gauss_area_increasing (x y : R) : x < y -> gauss_area x < gauss_area y.
Proof. intros H. pose proof (gauss_area_diff_pos x y H). lra. Qed.

Lemma gauss_area_continuous : continuity gauss_area.
Proof.
  intros x. unfold continuity_pt, continue_in, limit1_in, limit_in.
  intros eps Heps. exists eps. split; [exact Heps |].
  intros y [_ Hy]. simpl in *. unfold R_dist in *.
  destruct (Rle_dec x y) as [Hxy | Hxy].
  - pose proof (gauss_area_diff_lip x y Hxy) as H1.
    assert (H2 : 0 <= gauss_area y - gauss_area x).
    { destruct Hxy as [Hlt | ->]; [left; apply gauss_area_diff_pos; exact Hlt | lra]. }
    rewrite Rabs_pos_eq by exact H2.
    rewrite Rabs_pos_eq in Hy by lra. lra.
  - assert (Hyx : y <= x) by lra.
    pose proof (gauss_area_diff_lip y x Hyx) as H1.
    assert (H2 : 0 < gauss_area x - gauss_area y)
      by (apply gauss_area_diff_pos; lra).
    rewrite Rabs_left by lra.
    rewrite Rabs_left in Hy by lra. lra.
Qed.

Lemma gauss_area_bound (x : R) : - (2 * PI) < gauss_area x < 2 * PI.
Proof.
  pose proof (atan_bound x) as Hx. pose proof atan_0 as H0.
  pose proof gauss_area_0 as A0. pose proof PI_RGT_0 as Hpi.
  destruct (Rle_dec 0 x) as [Hle | Hgt].
  - pose proof (gauss_area_diff_le 0 x Hle) as H.
    assert (0 <= gauss_area x - gauss_area 0).
    { destruct Hle as [Hlt | <-]; [left; apply gauss_area_diff_pos; exact Hlt | lra]. }
    lra.
  - assert (Hle : x <= 0) by lra.
    pose proof (gauss_area_diff_le x 0 Hle) as H.
    assert (0 < gauss_area 0 - gauss_area x) by (apply gauss_area_diff_pos; lra).
    lra.
Qed.

Lemma right_mass_lub : is_lub right_areas right_mass.
Proof.
  unfold right_mass. apply epsilon_spec.
  destruct (completeness right_areas) as [m Hm].
  - exists (2 * PI). intros v [x ->]. left. apply gauss_area_bound.
  - exists (gauss_area 0), 0. reflexivity.
  - exists m. exact Hm.
Qed.

Lemma left_mass_lub : is_lub left_areas left_mass.
Proof.
  unfold left_mass. apply epsilon_spec.
  destruct (completeness left_areas) as [m Hm].
  - exists (2 * PI). intros v [x ->].
    pose proof (gauss_area_bound x). lra.
  - exists (- gauss_area 0), 0. reflexivity.
  - exists m. exact Hm.
Qed.

Lemma gauss_area_le_right (x : R) : gauss_area x <= right_mass.
Proof. apply (proj1 right_mass_lub). exists x. reflexivity. Qed.

Lemma gauss_area_ge_left (x : R) : - left_mass <= gauss_area x.
Proof.
  assert (- gauss_area x <= left_mass)
    by (apply (proj1 left_mass_lub); exists x; reflexivity).
  lra.
Qed.

Lemma right_mass_approached (v : R) :
  v < right_mass -> exists x, v < gauss_area x.
Proof.
  intros Hv. destruct (classic (exists x, v < gauss_area x)) as [H | H].
  - exact H.
  - exfalso.
    assert (Hub : is_upper_bound right_areas v).
    { intros w [x ->]. apply Rnot_lt_le. intros Hlt. apply H.
      exists x. exact Hlt. }
    pose proof (proj2 right_mass_lub v Hub). lra.
Qed.

Lemma left_mass_approached (v : R) :
  - left_mass < v -> exists x, gauss_area x < v.
Proof.
  intros Hv. destruct (classic (exists x, gauss_area x < v)) as [H | H].
  - exact H.
  - exfalso.
    assert (Hub : is_upper_bound left_areas (- v)).
    { intros w [x ->].
      assert (v <= gauss_area x).
      { apply Rnot_lt_le. intros Hlt. apply H. exists x. exact Hlt. }
      lra. }
    pose proof (proj2 left_mass_lub (- v) Hub). lra.
Qed.

Lemma right_mass_pos : 0 < right_mass.
Proof.
  pose proof (gauss_area_le_right 1).
  pose proof (gauss_area_increasing 0 1 ltac:(lra)).
  pose proof gauss_area_0. lra.
Qed.

Lemma left_mass_pos : 0 < left_mass.
Proof.
  pose proof (gauss_area_ge_left (-1)).
  pose proof (gauss_area_increasing (-1) 0 ltac:(lra)).
  pose proof gauss_area_0. lra.
Qed.

Lemma Phi_increasing (x y : R) : x < y -> Phi x < Phi y.
Proof.
  intros Hxy. unfold Phi, Rdiv.
  pose proof right_mass_pos. pose proof left_mass_pos.
  pose proof (gauss_area_increasing x y Hxy).
  apply Rmult_lt_compat_r; [apply Rinv_0_lt_compat; lra | lra].
Qed.

Lemma Phi_reaches (c : R) : 0 < c < 1 -> exists z, Phi z = c.
Proof.
  intros [Hc0 Hc1].
  pose proof right_mass_pos as Hr. pose proof left_mass_pos as Hl.
  set (total := left_mass + right_mass).
  assert (Ht : 0 < total) by (unfold total; lra).
  set (v := c * total - left_mass).
  assert (Hv1 : v < right_mass).
  { unfold v. assert (c * total < 1 * total)
      by (apply Rmult_lt_compat_r; assumption).
    unfold total in *. lra. }
  assert (Hv0 : - left_mass < v).
  { unfold v. assert (0 < c * total) by (apply Rmult_lt_0_compat; assumption).
    lra. }
  destruct (right_mass_approached v Hv1) as [x1 Hx1].
  destruct (left_mass_approached v Hv0) as [x0 Hx0].
  assert (Hx : x0 <= x1).
  { apply Rnot_lt_le. intros Hlt.
    pose proof (gauss_area_increasing x1 x0 Hlt). lra. }
  destruct (IVT_cor (fun x => gauss_area x - v) x0 x1) as [z [_ Hz]].
  - intros x. apply continuity_pt_minus.
    + apply gauss_area_continuous.
    + apply continuity_pt_const. intros a b. reflexivity.
  - exact Hx.
  - assert (0 <= (v - gauss_area x0) * (gauss_area x1 - v))
      by (apply Rmult_le_pos; lra).
    lra.
  - exists z. unfold Phi. fold total.
    replace (gauss_area z) with v by lra.
    unfold v. field. lra.
Qed.

Lemma Phi_ndtri (q : R) : 0 < q < 1 -> Phi (ndtri q) = q.
Proof.
  intros H. unfold ndtri.
  apply (epsilon_spec (inhabits 0) (fun z => Phi z = q)).
  apply Phi_reaches. exact H.
Qed.

Lemma Phi_injective (x y : R) : Phi x = Phi y -> x = y.
Proof.
  intros H.
  destruct (Rtotal_order x y) as [Hlt | [Heq | Hgt]].
  - pose proof (Phi_increasing x y Hlt). lra.
  - exact Heq.
  - pose proof (Phi_increasing y x Hgt). lra.
Qed.

Lemma NormalCDF_injective (mu sigma x y : R) :
  sigma <> 0 -> NormalCDF mu sigma x = NormalCDF mu sigma y -> x = y.
Proof.
  intros Hs H. unfold NormalCDF in H. apply Phi_injective in H.
  assert (E : x - mu = y - mu).
  { replace (x - mu) with ((x - mu) / sigma * sigma) by (field; exact Hs).
    rewrite H. field. exact Hs. }
  lra.
Qed.

(** C1. For a stats pair (mean [m], standard deviation [s > 0]), an initial
    investment [I > 0] and a confidence level [c] in (0,1), [estimateVaR]
    returns [I - x], where [x] is the [c]-quantile of the Normal law of mean
    [(1 + m) * I] and standard deviation [s * I]: the one point where its
    distribution function takes the value [c]. *)
Theorem estimateVaR_normal_quantile (m s I c : R) (h : nat) :
  0 < s ->
  0 < I ->
  0 < c < 1 ->
  exists x,
    estimateVaR (mkStats (Fin m) (Fin s)) (mkParams (Fin c) (Fin I) h)
      = Returned (Fin (I - x)) /\
    NormalCDF ((1 + m) * I) (s * I) x = c /\
    forall y, NormalCDF ((1 + m) * I) (s * I) y = c -> y = x.
Proof.
  intros Hs HI Hc.
  assert (Hsc : 0 < I * s) by (apply Rmult_lt_0_compat; assumption).
  assert (Hx : NormalCDF ((1 + m) * I) (s * I)
                 (ndtri c * (I * s) + (1 + m) * I) = c).
  { unfold NormalCDF.
    replace ((ndtri c * (I * s) + (1 + m) * I - (1 + m) * I) / (s * I))
      with (ndtri c) by (field; lra).
    apply Phi_ndtri. exact Hc. }
  exists (ndtri c * (I * s) + (1 + m) * I).
  split; [| split].
  - rewrite estimateVaR_Fin, norm_ppf_interior by assumption. reflexivity.
  - exact Hx.
  - intros y Hy. apply (NormalCDF_injective ((1 + m) * I) (s * I)).
    + nra.
    + rewrite Hx, Hy. reflexivity.
Qed.

Lemma estimateVaR_normal_quantile_witness :
  exists x,
    estimateVaR (mkStats (Fin (277 / 1000000)) (Fin (1794 / 100000)))
                (mkParams (Fin (5 / 100)) (Fin 1000) 30)
      = Returned (Fin (1000 - x)) /\
    NormalCDF ((1 + 277 / 1000000) * 1000) (1794 / 100000 * 1000) x
      = 5 / 100 /\
    forall y,
      NormalCDF ((1 + 277 / 1000000) * 1000) (1794 / 100000 * 1000) y
        = 5 / 100 ->
      y = x.
Proof.
  apply (estimateVaR_normal_quantile
           (277 / 1000000) (1794 / 100000) 1000 (5 / 100) 30); lra.
Defined.

(** * Further properties of the notebook's cells *)

(** ** Returns: scale invariance *)











(** ** Returns: the ratio form, bounds and the way back to prices *)

Lemma combine_shift_ratios (l : list float) :
  forall p,
    map (fun q => fsub (fdiv (fst q) (snd q)) (Fin 1))
        (combine l (firstn (length l) (p :: l))) = ratios p l.
Proof.
  induction l as [| x t IH]; intros p; [reflexivity |].
  cbn [length firstn combine map ratios fst snd].
  rewrite IH. reflexivity.
Qed.

Lemma pct_change_ratios (col : list float) :
  pct_change col = ratios NaN (ffill col).
Proof. unfold pct_change, shift. apply combine_shift_ratios. Qed.

Lemma pct_change_ratios_notna (col : list float) :
  Forall (fun a => isnan a = false) col -> pct_change col = ratios NaN col.
Proof.
  intros H. rewrite pct_change_ratios. unfold ffill.
  rewrite ffill_from_id by exact H. reflexivity.
Qed.

Lemma ratios_head_nan (a : float) (t : list float) :
  ratios NaN (a :: t) = NaN :: ratios a t.
Proof. cbn [ratios]. destruct a; reflexivity. Qed.






Lemma ratios_repeat (p : R) (n : nat) :
  p <> 0 -> ratios (Fin p) (repeat (Fin p) n) = repeat (Fin 0) n.
Proof.
  intros Hp. induction n as [| n IH]; [reflexivity |].
  cbn [repeat ratios]. rewrite IH, fdiv_fin by exact Hp.
  cbn [fsub fneg fadd].
  replace (p / p + - (1)) with 0 by (field; exact Hp). reflexivity.
Qed.

(** X4. A price that does not move has zero returns: for a constant finite
    non-zero price repeated [n + 1] times, [pct_change] gives the undefined
    first entry followed by [n] zeros. *)
Theorem pct_change_constant (p : R) (n : nat) :
  p <> 0 ->
  pct_change (repeat (Fin p) (S n)) = NaN :: repeat (Fin 0) n.
Proof.
  intros Hp.
  rewrite pct_change_ratios_notna
    by (apply Forall_forall; intros a Ha; apply repeat_spec in Ha;
        subst a; reflexivity).
  cbn [repeat]. rewrite ratios_head_nan, ratios_repeat by exact Hp.
  reflexivity.
Qed.

Lemma pct_change_constant_witness :
  pct_change (repeat (Fin 130) 4) = NaN :: repeat (Fin 0) 3.
Proof. apply (pct_change_constant 130 3). lra. Defined.

(** ** Returns: a missing price *)

Lemma nth_ratios (l : list float) :
  forall p t,
    (S t < length l)%nat ->
    nth (S t) (ratios p l) NaN =
    fsub (fdiv (nth (S t) l NaN) (nth t l NaN)) (Fin 1).
Proof.
  induction l as [| x l IH]; intros p t Ht; [simpl in Ht; lia |].
  cbn [ratios]. cbn [nth].
  destruct l as [| y l']; [simpl in Ht; lia |].
  destruct t as [| t'].
  - reflexivity.
  - rewrite IH by (simpl in *; lia). reflexivity.
Qed.

Lemma nth_ffill_from_missing (col : list float) :
  forall last t,
    (S t < length col)%nat ->
    nth (S t) col NaN = NaN ->
    nth (S t) (ffill_from last col) NaN = nth t (ffill_from last col) NaN.
Proof.
  induction col as [| x col IH]; intros last t Ht Hnan; [simpl in Ht; lia |].
  cbn [ffill_from]. cbv zeta.
  destruct col as [| y col']; [simpl in Ht; lia |].
  destruct t as [| t'].
  - cbn [nth] in Hnan. subst y. reflexivity.
  - cbn [nth] in Hnan |- *.
    apply (IH (if isnan x then last else x) t').
    + simpl in *. lia.
    + exact Hnan.
Qed.

(** X5. A missing price is filled with the last known one before the
    returns are taken: where the price is missing and the price carried
    forward to the day before is a finite non-zero number, the return of
    that day is exactly 0. *)
Theorem pct_change_missing_price (col : list float) (t : nat) (p : R) :
  (S t < length col)%nat ->
  nth (S t) col NaN = NaN ->
  nth t (ffill col) NaN = Fin p ->
  p <> 0 ->
  nth (S t) (pct_change col) NaN = Fin 0.
Proof.
  intros Ht Hnan Hprev Hp.
  rewrite pct_change_ratios.
  rewrite nth_ratios by (unfold ffill; rewrite length_ffill_from; exact Ht).
  unfold ffill in *.
  rewrite (nth_ffill_from_missing col NaN t Ht Hnan), Hprev.
  rewrite fdiv_fin by exact Hp. cbn [fsub fneg fadd].
  replace (p / p + - (1)) with 0 by (field; exact Hp). reflexivity.
Qed.

Lemma pct_change_missing_price_witness :
  nth 2 (pct_change [Fin 100; Fin 110; NaN; Fin 99]) NaN = Fin 0.
Proof.
  apply (pct_change_missing_price [Fin 100; Fin 110; NaN; Fin 99] 1 110).
  - simpl. lia.
  - reflexivity.
  - reflexivity.
  - lra.
Defined.

(** ** The aggregator: shape check *)

Lemma ncols_cov (rets : ReturnTable) : ncols (cov rets) = length rets.
Proof.
  unfold cov. destruct rets as [| c rets]; [reflexivity |].
  cbv zeta. cbn [length seq map ncols].
  rewrite length_map, length_seq. reflexivity.
Qed.

Lemma quadratic_form_cov_returns (rets : ReturnTable) (w : PortfolioWeights) :
  length w = length rets ->
  exists q, quadratic_form w (cov rets) = Returned q.
Proof.
  intros Hlen. unfold quadratic_form, np_dot_vec_mat, np_dot.
  rewrite length_cov, Hlen, Nat.eqb_refl. cbn [bind].
  rewrite length_map, length_seq, ncols_cov, <- Hlen, Nat.eqb_refl.
  eexists. reflexivity.
Qed.

Lemma port_mean_returns (rets : ReturnTable) (w : PortfolioWeights) :
  length w = length rets ->
  port_mean (mean_returns rets) w = Returned (fdot (mean_returns rets) w).
Proof.
  intros Hlen. unfold port_mean, np_dot, mean_returns.
  rewrite length_map, Hlen, Nat.eqb_refl. reflexivity.
Qed.

Lemma port_mean_raises (rets : ReturnTable) (w : PortfolioWeights) :
  length w <> length rets ->
  port_mean (mean_returns rets) w = Raised DimensionMismatchError.
Proof.
  intros Hlen. unfold port_mean, np_dot, mean_returns.
  rewrite length_map.
  destruct (length rets =? length w)%nat eqn:E; [| reflexivity].
  apply Nat.eqb_eq in E. congruence.
Qed.

(** X6. [aggregate] fails exactly when the number of weights differs from
    the number of assets, and then with the shape error; with as many
    weights as assets it always returns a pair of statistics. *)
Theorem aggregate_raises_iff (rets : ReturnTable) (w : PortfolioWeights) :
  (aggregate rets w = Raised DimensionMismatchError <->
   length w <> length rets) /\
  (length w = length rets -> exists st, aggregate rets w = Returned st).
Proof.
  assert (Hok : length w = length rets ->
                exists st, aggregate rets w = Returned st).
  { intros Hlen. unfold aggregate, port_stdev. cbv zeta.
    rewrite (port_mean_returns rets w Hlen).
    destruct (quadratic_form_cov_returns rets w Hlen) as [q Hq].
    rewrite Hq. cbn [bind]. eexists. reflexivity. }
  split; [| exact Hok]. split.
  - intros Hr Hlen. destruct (Hok Hlen) as [st Hst].
    rewrite Hst in Hr. discriminate.
  - intros Hlen. unfold aggregate. cbv zeta.
    rewrite (port_mean_raises rets w Hlen). reflexivity.
Qed.

Lemma aggregate_raises_iff_witness :
  aggregate late_listing_returns [Fin 1] = Raised DimensionMismatchError /\
  exists st, aggregate late_listing_returns [Fin 1; Fin 0] = Returned st.
Proof.
  split.
  - apply (proj1 (aggregate_raises_iff late_listing_returns [Fin 1])).
    simpl. lia.
  - apply (proj2 (aggregate_raises_iff late_listing_returns [Fin 1; Fin 0])).
    reflexivity.
Defined.

(** ** The covariance matrix: its diagonal *)

Lemma Rsum_squares_nonneg {A : Type} (f : A -> R) (l : list A) :
  0 <= Rsum (map (fun a => f a * f a) l).
Proof.
  induction l as [| a l IH]; simpl; [lra |].
  pose proof (Rle_0_sqr (f a)) as H. unfold Rsqr in H. lra.
Qed.

Lemma sample_var_nonneg (xs : list R) :
  (2 <= length xs)%nat -> 0 <= sample_var xs.
Proof.
  intros Hn. unfold sample_var. cbv zeta.
  assert (H2 : 2 <= INR (length xs)).
  { change 2 with (INR 2). apply le_INR. exact Hn. }
  apply Rmult_le_pos.
  - apply (Rsum_squares_nonneg (fun x => x - Rmean xs)).
  - left. apply Rinv_0_lt_compat. lra.
Qed.

Lemma cov_diagonal_sample_var (rets : ReturnTable) (i : nat) :
  (i < length rets)%nat ->
  (2 <= length (observed (nth i rets [])))%nat ->
  nth i (nth i (cov rets) []) NaN = Fin (sample_var (observed (nth i rets []))).
Proof.
  intros Hi Hn. rewrite nth_cov by exact Hi. rewrite cov_entry_pair.
  rewrite nancorr_pair_sample_cov by (rewrite length_paired_obs_diag; exact Hn).
  rewrite paired_obs_diag, sample_cov_diag. reflexivity.
Qed.

(** X7. A diagonal entry of the covariance matrix is never negative: it is
    NaN (the asset has fewer than two observed returns) or a finite number
    that is at least 0. *)
Theorem cov_diagonal_nonneg (rets : ReturnTable) (i : nat) :
  (i < length rets)%nat ->
  nth i (nth i (cov rets) []) NaN = NaN \/
  exists v, nth i (nth i (cov rets) []) NaN = Fin v /\ 0 <= v.
Proof.
  intros Hi.
  destruct (le_lt_dec 2 (length (observed (nth i rets [])))) as [Hn | Hn].
  - right. exists (sample_var (observed (nth i rets []))).
    split; [apply cov_diagonal_sample_var; assumption |].
    apply sample_var_nonneg. exact Hn.
  - left. rewrite nth_cov by exact Hi. rewrite cov_entry_pair.
    apply nancorr_pair_few. rewrite length_paired_obs_diag. lia.
Qed.

Lemma cov_diagonal_nonneg_witness :
  nth 1 (nth 1 (cov late_listing_returns) []) NaN = NaN \/
  exists v, nth 1 (nth 1 (cov late_listing_returns) []) NaN = Fin v /\ 0 <= v.
Proof. apply (cov_diagonal_nonneg late_listing_returns 1). simpl. lia. Defined.

(** ** The aggregator: one asset *)

(** X8. For a portfolio of a single asset held with weight 1 (its returns
    missing or finite, at least two of them observed), [aggregate] returns
    the asset's own mean return and the square root of its own sample
    variance. *)
Theorem aggregate_single_asset (col : list float) :
  Forall missing_or_finite col ->
  (2 <= length (observed col))%nat ->
  aggregate [col] [Fin 1] =
  Returned (mkStats (Fin (Rmean (observed col)))
                    (Fin (sqrt (sample_var (observed col))))).
Proof.
  intros Hfin Hn.
  change [Fin 1] with (map Fin [1]).
  rewrite (aggregate_Fin [col] [1] [Rmean (observed col)]
             [[sample_var (observed col)]]).
  - unfold dot_spec, quad_form. cbn [length seq map nth Rsum fold_right].
    replace (Rmean (observed col) * 1 + 0) with (Rmean (observed col)) by ring.
    replace (1 * sample_var (observed col) * 1 + 0 + 0)
      with (sample_var (observed col)) by ring.
    rewrite fsqrt_fin by (apply sample_var_nonneg; exact Hn).
    reflexivity.
  - rewrite mean_returns_mean_vector; [reflexivity |].
    intros c [<- | []]. split; [exact Hfin | lia].
  - rewrite cov_sample_cov_matrix.
    + unfold sample_cov_matrix. cbn [map].
      rewrite paired_obs_diag, sample_cov_diag. reflexivity.
    + intros i j Hi Hj. cbn [length] in Hi, Hj.
      assert (i = 0%nat) by lia. assert (j = 0%nat) by lia. subst.
      cbn [nth]. rewrite length_paired_obs_diag. exact Hn.
  - reflexivity.
Qed.

Lemma aggregate_single_asset_witness :
  aggregate [[NaN; Fin 0; Fin (1 / 10); Fin (-1 / 10)]] [Fin 1] =
  Returned (mkStats
    (Fin (Rmean (observed [NaN; Fin 0; Fin (1 / 10); Fin (-1 / 10)])))
    (Fin (sqrt (sample_var
                  (observed [NaN; Fin 0; Fin (1 / 10); Fin (-1 / 10)]))))).
Proof.
  apply (aggregate_single_asset [NaN; Fin 0; Fin (1 / 10); Fin (-1 / 10)]).
  - repeat constructor; try (left; reflexivity); right; reflexivity.
  - simpl. lia.
Defined.

(** ** The aggregator: too few observations *)

Lemma fold_fadd_nan (l : list float) : fold_left fadd l NaN = NaN.
Proof. induction l as [| a l IH]; [reflexivity |]. cbn [fold_left fadd]. exact IH. Qed.

Lemma fadd_nan_r (a : float) : fadd a NaN = NaN.
Proof. destruct a; reflexivity. Qed.

Lemma fmul_nan_r (a : float) : fmul a NaN = NaN.
Proof. destruct a; reflexivity. Qed.

Lemma fold_fadd_has_nan (l : list float) :
  forall a, In NaN l -> fold_left fadd l a = NaN.
Proof.
  induction l as [| x l IH]; intros a H; [contradiction |].
  cbn [fold_left]. destruct H as [-> | H].
  - rewrite fadd_nan_r. apply fold_fadd_nan.
  - apply IH. exact H.
Qed.

(** A dot product with a NaN factor is NaN. *)
Lemma fdot_nan_right (l : list float) (n : nat) :
  length l = n -> (1 <= n)%nat -> fdot l (repeat NaN n) = NaN.
Proof.
  intros Hl Hn. unfold fdot, fsum. apply fold_fadd_has_nan.
  destruct l as [| a l]; [simpl in Hl; lia |].
  destruct n as [| n]; [lia |].
  cbn [repeat combine map fst snd]. left. apply fmul_nan_r.
Qed.

Lemma fdot_nan_left (r : list float) (n : nat) :
  length r = n -> (1 <= n)%nat -> fdot (repeat NaN n) r = NaN.
Proof.
  intros Hl Hn. unfold fdot, fsum. apply fold_fadd_has_nan.
  destruct r as [| a r]; [simpl in Hl; lia |].
  destruct n as [| n]; [lia |].
  cbn [repeat combine map fst snd]. left. reflexivity.
Qed.

Lemma map_const_repeat {A B : Type} (b : B) (l : list A) :
  map (fun _ => b) l = repeat b (length l).
Proof. induction l as [| a l IH]; [reflexivity |]. simpl. rewrite IH. reflexivity. Qed.

Lemma nth_repeat_nan (n j : nat) : nth j (repeat NaN n) NaN = NaN.
Proof.
  revert j. induction n as [| n IH]; intros [| j]; try reflexivity.
  cbn [repeat nth]. apply IH.
Qed.

(** The quadratic form over a matrix of NaN entries is NaN. *)
Lemma quadratic_form_nan_matrix (w : PortfolioWeights) (K : nat) :
  length w = K ->
  (1 <= K)%nat ->
  quadratic_form w (repeat (repeat NaN K) K) = Returned NaN.
Proof.
  intros Hw HK. unfold quadratic_form, np_dot_vec_mat, np_dot.
  rewrite repeat_length, Hw, Nat.eqb_refl. cbn [bind].
  assert (Hn : ncols (repeat (repeat NaN K) K) = K).
  { destruct K as [| K]; [lia |].
    change (ncols (repeat (repeat NaN (S K)) (S K)))
      with (length (repeat NaN (S K))).
    apply repeat_length. }
  rewrite Hn.
  assert (Hwc : map (fun j => fdot w (column (repeat (repeat NaN K) K) j))
                    (seq 0 K) = repeat NaN K).
  { transitivity (map (fun _ : nat => NaN) (seq 0 K));
      [| rewrite map_const_repeat, length_seq; reflexivity].
    apply map_ext. intros j. unfold column.
    rewrite (map_ext_in _ (fun _ => NaN)).
    - rewrite map_const_repeat, repeat_length.
      apply fdot_nan_right; assumption.
    - intros row Hrow. apply repeat_spec in Hrow. subst row.
      apply nth_repeat_nan. }
  rewrite Hwc, repeat_length, Nat.eqb_refl.
  rewrite fdot_nan_left by assumption. reflexivity.
Qed.

Lemma length_obs_of (rows : list (float * float)) :
  (length (obs_of rows) <= length rows)%nat.
Proof.
  unfold obs_of. rewrite length_map.
  induction rows as [| p rows IH]; [simpl; lia |].
  simpl. destruct (both_finite p); simpl; lia.
Qed.

Lemma length_paired_obs_le (x y : list float) :
  (length (paired_obs x y) <= length x)%nat.
Proof.
  rewrite paired_obs_obs_of.
  pose proof (length_obs_of (combine x y)) as H.
  rewrite length_combine in H. lia.
Qed.

Lemma pct_change_cons (a : float) (t : list float) :
  exists rest, pct_change (a :: t) = NaN :: rest /\ length rest = length t.
Proof.
  rewrite pct_change_ratios. unfold ffill. cbn [ffill_from]. cbv zeta.
  rewrite ratios_head_nan. eexists. split; [reflexivity |].
  assert (Hr : forall l p, length (ratios p l) = length l).
  { induction l as [| x l IH]; intros p; [reflexivity |].
    cbn [ratios length]. rewrite IH. reflexivity. }
  rewrite Hr, length_ffill_from. reflexivity.
Qed.

Lemma paired_obs_short (x y : list float) :
  (length x <= 2)%nat ->
  (length (paired_obs (pct_change x) (pct_change y)) <= 1)%nat.
Proof.
  intros Hx. destruct x as [| a t].
  - cbn. lia.
  - destruct (pct_change_cons a t) as (rx & -> & Hrx).
    destruct y as [| b u].
    + cbn. lia.
    + destruct (pct_change_cons b u) as (ry & -> & Hry).
      change (paired_obs (NaN :: rx) (NaN :: ry)) with (paired_obs rx ry).
      pose proof (length_paired_obs_le rx ry). simpl in Hx. lia.
Qed.

Lemma cov_all_nan (rets : ReturnTable) :
  (forall i j, (i < length rets)%nat -> (j < length rets)%nat ->
     (length (paired_obs (nth i rets []) (nth j rets [])) <= 1)%nat) ->
  cov rets = repeat (repeat NaN (length rets)) (length rets).
Proof.
  intros H. unfold cov. cbv zeta.
  transitivity (map (fun _ : nat => repeat NaN (length rets))
                    (seq 0 (length rets)));
    [| rewrite map_const_repeat, length_seq; reflexivity].
  apply map_ext_in. intros i Hi. apply in_seq in Hi.
  transitivity (map (fun _ : nat => NaN) (seq 0 (length rets)));
    [| rewrite map_const_repeat, length_seq; reflexivity].
  apply map_ext_in. intros j Hj. apply in_seq in Hj.
  rewrite cov_entry_pair. apply nancorr_pair_few. apply H; lia.
Qed.

(** X9. Two prices per asset are not enough for a risk figure: when no
    price sequence has more than two entries (and there is at least one
    asset, with as many weights as assets), every covariance has a zero
    denominator and [aggregate] returns a NaN standard deviation, without
    failing. *)
Theorem aggregate_two_prices_is_nan (prices : PriceTable) (w : PortfolioWeights) :
  (forall col, In col prices -> (length col <= 2)%nat) ->
  (1 <= length prices)%nat ->
  length w = length prices ->
  exists m, aggregate (returns prices) w = Returned (mkStats m NaN).
Proof.
  intros Hshort HK Hw.
  assert (Hlen : length (returns prices) = length prices)
    by (unfold returns; apply length_map).
  exists (fdot (mean_returns (returns prices)) w).
  unfold aggregate, port_stdev. cbv zeta.
  rewrite port_mean_returns by congruence.
  rewrite cov_all_nan.
  - rewrite quadratic_form_nan_matrix by lia. reflexivity.
  - intros i j Hi Hj. rewrite !nth_returns.
    apply paired_obs_short. apply Hshort. apply nth_In. lia.
Qed.

Lemma aggregate_two_prices_is_nan_witness :
  exists m,
    aggregate (returns [[Fin 100; Fin 110]; [Fin 50; Fin 55]])
              [Fin (1 / 2); Fin (1 / 2)]
    = Returned (mkStats m NaN).
Proof.
  apply (aggregate_two_prices_is_nan
           [[Fin 100; Fin 110]; [Fin 50; Fin 55]] [Fin (1 / 2); Fin (1 / 2)]).
  - intros col [<- | [<- | []]]; simpl; lia.
  - simpl. lia.
  - reflexivity.
Defined.

(** ** The aggregator: complete tables give a real standard deviation *)






















(** ** The VaR estimator: closed form, scaling and monotonicity *)







(** ** The VaR estimator: undefined inputs *)

Lemma norm_ppf_nan_scale (q loc : float) : norm_ppf q loc NaN = NaN.
Proof. reflexivity. Qed.

Lemma norm_ppf_nan_loc (q scale : float) : norm_ppf q NaN scale = NaN.
Proof.
  unfold norm_ppf. cbv zeta. cbn [feqb].
  rewrite andb_false_r. reflexivity.
Qed.

Lemma norm_ppf_nan_q (loc scale : float) : norm_ppf NaN loc scale = NaN.
Proof.
  unfold norm_ppf. cbv zeta. cbn [fltb feqb].
  rewrite !andb_false_r. reflexivity.
Qed.

Lemma fmul_nan_l (a : float) : fmul NaN a = NaN.
Proof. reflexivity. Qed.

Lemma estimateVaR_nan_stdev (m : float) (params : RiskParameters) :
  estimateVaR (mkStats m NaN) params = Returned NaN.
Proof.
  unfold estimateVaR, percent_point, value_at_risk, investment_stdev.
  cbv zeta. cbn [stdDev]. rewrite fmul_nan_r, norm_ppf_nan_scale, fsub_nan.
  reflexivity.
Qed.

(** X13. An undefined input gives an undefined VaR and no failure: when the
    mean, the standard deviation, the confidence level or the investment is
    NaN, [estimateVaR] returns NaN. *)
Theorem estimateVaR_nan_in_nan_out
  (stats : PortfolioStats) (params : RiskParameters) :
  mean stats = NaN \/ stdDev stats = NaN \/
  confidenceLevel params = NaN \/ initialInvestment params = NaN ->
  estimateVaR stats params = Returned NaN.
Proof.
  destruct stats as [m s]. destruct params as [c I h].
  cbn [mean stdDev confidenceLevel initialInvestment].
  intros [-> | [-> | [-> | ->]]].
  - unfold estimateVaR, percent_point, value_at_risk, mean_investment.
    cbv zeta. cbn [mean stdDev confidenceLevel initialInvestment].
    rewrite fadd_nan_r, fmul_nan_l, norm_ppf_nan_loc, fsub_nan. reflexivity.
  - apply estimateVaR_nan_stdev.
  - unfold estimateVaR, percent_point, value_at_risk.
    cbv zeta. cbn [mean stdDev confidenceLevel initialInvestment].
    rewrite norm_ppf_nan_q, fsub_nan. reflexivity.
  - reflexivity.
Qed.

Lemma estimateVaR_nan_in_nan_out_witness :
  estimateVaR (mkStats (Fin (1 / 100)) NaN)
              (mkParams (Fin (5 / 100)) (Fin 1000) 30) = Returned NaN.
Proof.
  apply (estimateVaR_nan_in_nan_out
           (mkStats (Fin (1 / 100)) NaN)
           (mkParams (Fin (5 / 100)) (Fin 1000) 30)).
  right. left. reflexivity.
Defined.

(** ** The Normal distribution function is symmetric *)















(** ** The risk curve *)

Lemma scaleToHorizon_Fin (v : R) (n : nat) :
  scaleToHorizon (Fin v) n = map (fun d => Fin (v * sqrt (INR d))) (seq 1 n).
Proof.
  unfold scaleToHorizon. apply map_ext. intros d.
  unfold of_nat. rewrite fsqrt_fin by apply pos_INR. reflexivity.
Qed.

(** X16. For a VaR that is not negative the curve never goes down: the
    value at a later day is at least the value at an earlier day. *)
Theorem scaleToHorizon_monotone (v : R) (n k k' : nat) :
  0 <= v ->
  (k <= k')%nat ->
  (k' < n)%nat ->
  exists a b,
    nth k (scaleToHorizon (Fin v) n) NaN = Fin a /\
    nth k' (scaleToHorizon (Fin v) n) NaN = Fin b /\
    a <= b.
Proof.
  intros Hv Hk Hk'.
  exists (v * sqrt (INR (S k))), (v * sqrt (INR (S k'))).
  rewrite scaleToHorizon_Fin.
  rewrite !nth_seq_map by lia. cbn [Nat.add].
  split; [reflexivity |]. split; [reflexivity |].
  apply Rmult_le_compat_l; [exact Hv |].
  apply sqrt_le_1; try apply pos_INR.
  apply le_INR. lia.
Qed.

Lemma scaleToHorizon_monotone_witness :
  exists a b,
    nth 0 (value_at_risks (Fin 28)) NaN = Fin a /\
    nth 29 (value_at_risks (Fin 28)) NaN = Fin b /\
    a <= b.
Proof. apply (scaleToHorizon_monotone 28 30 0 29); [lra | lia | lia]. Defined.


Lemma sqrt_INR_pos (d : nat) : (1 <= d)%nat -> 0 < sqrt (INR d).
Proof. intros H. apply sqrt_lt_R0. apply lt_0_INR. lia. Qed.

Lemma scaleToHorizon_special (v : float) (n : nat) :
  v = NaN \/ v = PInf \/ v = NInf ->
  scaleToHorizon v n = repeat v n.
Proof.
  intros Hv. unfold scaleToHorizon.
  transitivity (map (fun _ : nat => v) (seq 1 n));
    [| rewrite map_const_repeat, length_seq; reflexivity].
  apply map_ext_in. intros d Hd. apply in_seq in Hd.
  unfold of_nat. rewrite fsqrt_fin by apply pos_INR.
  destruct Hv as [-> | [-> | ->]].
  - reflexivity.
  - cbn [fmul]. rewrite Rsign_pos by (apply sqrt_INR_pos; lia). reflexivity.
  - cbn [fmul]. rewrite Rsign_pos by (apply sqrt_INR_pos; lia). reflexivity.
Qed.

(** X18. A VaR that is not a number spreads over the whole curve: for a
    one-day VaR of NaN, +inf or -inf, every value of the curve is that same
    NaN, +inf or -inf. *)
Theorem scaleToHorizon_not_a_number (v : float) (n : nat) :
  isfinite v = false ->
  scaleToHorizon v n = repeat v n.
Proof.
  intros Hv. apply scaleToHorizon_special.
  destruct v; try discriminate Hv; auto.
Qed.

Lemma scaleToHorizon_not_a_number_witness :
  scaleToHorizon PInf 30 = repeat PInf 30.
Proof. apply (scaleToHorizon_not_a_number PInf 30). reflexivity. Defined.

(** ** The notebook from end to end *)

Lemma notebook_unfold (data : PriceTable) (weights : PortfolioWeights)
  (I c : float) (st : PortfolioStats) (v : float) :
  aggregate (returns data) weights = Returned st ->
  estimateVaR st (mkParams c I 30) = Returned v ->
  notebook data weights I c = Returned (v, value_at_risks v).
Proof.
  intros Ha Hv. unfold notebook, buildReturns. cbn [bind].
  rewrite Ha. cbn [bind]. rewrite Hv. reflexivity.
Qed.




Lemma late_listing_aggregate :
  aggregate (returns late_listing_prices) [Fin 2; Fin (-1)]
  = Returned (mkStats (Fin 0) NaN).
Proof.
  assert (E : returns late_listing_prices = late_listing_returns).
  { pose proof late_listing_buildReturns as H. unfold buildReturns in H.
    exact (f_equal (fun r : result ReturnTable =>
                      match r with Returned x => x | Raised _ => [] end) H). }
  rewrite E. unfold aggregate, port_stdev. cbv zeta.
  rewrite late_listing_port_mean, late_listing_quadratic_form.
  cbn [bind]. rewrite fsqrt_neg by lra. reflexivity.
Qed.

(** X20. An undefined standard deviation goes through to the end without a
    failure: whenever [aggregate] returns NaN as standard deviation (a
    negative quadratic form, too few observations), the notebook returns NaN
    as VaR and a curve of thirty NaN, whatever the investment and the
    confidence level. *)
Theorem notebook_nan_stdev (data : PriceTable) (weights : PortfolioWeights)
  (I c m : float) :
  aggregate (returns data) weights = Returned (mkStats m NaN) ->
  notebook data weights I c = Returned (NaN, repeat NaN 30).
Proof.
  intros Ha.
  rewrite (notebook_unfold data weights I c _ NaN Ha)
    by apply estimateVaR_nan_stdev.
  unfold value_at_risks.
  rewrite scaleToHorizon_special by (left; reflexivity). reflexivity.
Qed.

Lemma notebook_nan_stdev_witness :
  notebook late_listing_prices [Fin 2; Fin (-1)] (Fin 1000) (Fin (5 / 100))
  = Returned (NaN, repeat NaN 30).
Proof.
  apply (notebook_nan_stdev late_listing_prices [Fin 2; Fin (-1)]
           (Fin 1000) (Fin (5 / 100)) (Fin 0)).
  exact late_listing_aggregate.
Defined.

(** ** More edge behaviour *)

Lemma nanmean_unobserved (col : list float) :
  Forall (fun a => a = NaN) col -> nanmean col = NaN.
Proof.
  intros H. unfold nanmean. cbv zeta.
  assert (E : filter notna col = []).
  { induction H as [| a col Ha Hcol IH]; [reflexivity |].
    subst a. cbn [filter notna isnan negb]. exact IH. }
  rewrite E. change (fdiv (Fin 0) (Fin 0) = NaN).
  unfold fdiv. rewrite !Rsign_zero. reflexivity.
Qed.

Lemma fdot_has_nan_left (l : list float) :
  forall r i,
    (i < length l)%nat ->
    (i < length r)%nat ->
    nth i l (Fin 0) = NaN ->
    In NaN (map (fun p => fmul (fst p) (snd p)) (combine l r)).
Proof.
  induction l as [| a l IH]; intros [| b r] i Hl Hr Hi;
    try (simpl in Hl, Hr; lia).
  destruct i as [| i].
  - cbn [nth] in Hi. subst a. left. reflexivity.
  - right. apply (IH r i); simpl in *; try lia. exact Hi.
Qed.

(** X21. An asset without a single observed return makes the portfolio mean
    undefined, silently: with as many weights as assets, if every return of
    some asset is missing, [aggregate] returns NaN as portfolio mean and
    does not fail. *)
Theorem aggregate_unobserved_asset
  (rets : ReturnTable) (w : PortfolioWeights) (i : nat) :
  length w = length rets ->
  (i < length rets)%nat ->
  Forall (fun a => a = NaN) (nth i rets []) ->
  exists s, aggregate rets w = Returned (mkStats NaN s).
Proof.
  intros Hw Hi Hnan.
  destruct (quadratic_form_cov_returns rets w Hw) as [q Hq].
  exists (fsqrt q). unfold aggregate, port_stdev. cbv zeta.
  rewrite (port_mean_returns rets w Hw), Hq. cbn [bind].
  do 2 f_equal. unfold fdot, fsum. apply fold_fadd_has_nan.
  apply (fdot_has_nan_left (mean_returns rets) w i).
  - unfold mean_returns. rewrite length_map. exact Hi.
  - lia.
  - unfold mean_returns.
    rewrite (nth_map_in nanmean rets i [] (Fin 0)) by exact Hi.
    apply nanmean_unobserved. exact Hnan.
Qed.

Lemma aggregate_unobserved_asset_witness :
  exists s,
    aggregate [[NaN; Fin 0; Fin (1 / 10)]; [NaN; NaN; NaN]]
              [Fin (1 / 2); Fin (1 / 2)]
    = Returned (mkStats NaN s).
Proof.
  apply (aggregate_unobserved_asset
           [[NaN; Fin 0; Fin (1 / 10)]; [NaN; NaN; NaN]]
           [Fin (1 / 2); Fin (1 / 2)] 1).
  - reflexivity.
  - simpl. lia.
  - repeat constructor.
Defined.

(** X22. The investment is not checked either: an investment that is zero
    or negative (with a finite mean and a standard deviation that is not
    negative) makes the scale of the quantile non-positive, and the VaR
    returned is NaN. *)
Theorem estimateVaR_nonpositive_investment (m s I : R) (c : float) (h : nat) :
  I <= 0 ->
  0 <= s ->
  estimateVaR (mkStats (Fin m) (Fin s)) (mkParams c (Fin I) h) = Returned NaN.
Proof.
  intros HI Hs.
  unfold estimateVaR, percent_point, value_at_risk, investment_stdev.
  cbv zeta. cbn [mean stdDev confidenceLevel initialInvestment fmul].
  rewrite norm_ppf_bad_scale; [reflexivity |].
  assert (0 <= - I * s) by (apply Rmult_le_pos; lra). lra.
Qed.

Lemma estimateVaR_nonpositive_investment_witness :
  estimateVaR (mkStats (Fin (1 / 100)) (Fin (2 / 100)))
              (mkParams (Fin (5 / 100)) (Fin (-1000)) 30) = Returned NaN.
Proof.
  apply (estimateVaR_nonpositive_investment
           (1 / 100) (2 / 100) (-1000) (Fin (5 / 100)) 30); lra.
Defined.

(** X23. The curve starts at the one-day VaR: over a horizon of at least
    one day its first value is the VaR it was given, be it a finite number,
    an infinity or NaN. *)
Theorem scaleToHorizon_starts_at_var (v : float) (n : nat) :
  (1 <= n)%nat ->
  nth 0 (scaleToHorizon v n) NaN = v.
Proof.
  intros Hn. rewrite nth_scaleToHorizon by lia.
  unfold of_nat. rewrite fsqrt_fin by apply pos_INR.
  change (INR 1) with 1. rewrite sqrt_1.
  destruct v as [x | | |].
  - cbn [fmul]. f_equal. lra.
  - cbn [fmul]. rewrite Rsign_pos by lra. reflexivity.
  - cbn [fmul]. rewrite Rsign_pos by lra. reflexivity.
  - reflexivity.
Qed.

Lemma scaleToHorizon_starts_at_var_witness :
  nth 0 (value_at_risks (Fin 28)) NaN = Fin 28.
Proof. apply (scaleToHorizon_starts_at_var (Fin 28) 30). lia. Defined.
